(** * blockchainRequests.js: retry, enumeration and credit allocation

    A shallow embedding of the parts of [src/blockchainRequests.js] that
    talk to the ledger with retries ([exponentialBackoff],
    [getTotalWalletNfts]), page through an owner's assets
    ([getWalletNfts], [repackageMetadata]) and split a credit balance
    over a batch of withdrawals ([processNfts], [checkoutNFTs]).

    JavaScript numbers are IEEE-754 binary64 values; they are modelled by
    [spec_float] at precision 53, and [ethers.BigNumber] by [Z]. *)

From Stdlib Require Import ZArith List Bool String Ascii Lia.
From Stdlib Require Import SpecFloat.
Import ListNotations.

Open Scope string_scope.
Open Scope list_scope.
Open Scope Z_scope.

(** ** JavaScript numbers and the ethers unit helpers *)

Definition Number : Type := spec_float.

Definition prec : Z := 53.
Definition emax : Z := 1024.

(** The double nearest to the rational [n / d] (ties to even), for
    [0 < d]: what a decimal literal or [parseFloat] of a decimal string
    denotes. *)
Definition Number_of_ratio (n d : Z) : Number :=
  match n, d with
  | Zpos p, Zpos q =>
      SFdiv prec emax (S754_finite false p 0) (S754_finite false q 0)
  | Zneg p, Zpos q =>
      SFdiv prec emax (S754_finite true p 0) (S754_finite false q 0)
  | _, _ => S754_zero false
  end.

Definition Number_of_Z (n : Z) : Number := Number_of_ratio n 1.

Definition WEI_PER_ETHER : Z := 10 ^ 18.

(** The value of [x.toFixed(18)]: a decimal string with exactly 18
    fraction digits, kept as its sign and its digits read as an integer,
    or a string that is not in fixed notation ("NaN", "Infinity",
    "1e+21"). *)
Inductive FixedString : Type :=
  | Fixed18 (negative : bool) (digits : Z)
  | NotFixed.

(** Whether the finite number [m * 2^e] is at least [10^21]. *)
Definition at_least_1e21 (m : positive) (e : Z) : bool :=
  if e <? 0 then 10 ^ 21 * 2 ^ (- e) <=? Zpos m
  else 10 ^ 21 <=? Zpos m * 2 ^ e.

(** The integer [n] for which [n / 10^18 - m * 2^e] is closest to zero,
    the larger one on a tie. *)
Definition fixed18_digits (m : positive) (e : Z) : Z :=
  if e <? 0
  then (2 * (Zpos m * WEI_PER_ETHER) + 2 ^ (- e)) / (2 * 2 ^ (- e))
  else Zpos m * 2 ^ e * WEI_PER_ETHER.

(** [Number.prototype.toFixed(18)]: the digits of the nearest multiple of
    [10^-18] to [|x|] after the sign; [|x| >= 10^21] and non-finite
    numbers print in another notation. *)
Definition toFixed18 (x : Number) : FixedString :=
  match x with
  | S754_zero _ => Fixed18 false 0
  | S754_finite s m e =>
      if at_least_1e21 m e then NotFixed
      else Fixed18 s (fixed18_digits m e)
  | S754_infinity _ => NotFixed
  | S754_nan => NotFixed
  end.

(** [ethers.utils.parseEther] on such a string; [None] is the thrown
    "invalid decimal value" error. *)
Definition parseEther (s : FixedString) : option Z :=
  match s with
  | Fixed18 negative digits => Some (if negative then - digits else digits)
  | NotFixed => None
  end.

(** [parseFloat(ethers.utils.formatEther(wei))]: [formatEther] prints
    [wei / 10^18] exactly, [parseFloat] rounds it to the nearest double. *)
Definition parseFloat_formatEther (wei : Z) : Number :=
  Number_of_ratio wei WEI_PER_ETHER.

(** [x < y] on numbers. *)
Definition Number_ltb (x y : Number) : bool := SFltb x y.

(** The literal [1e-18]. *)
Definition lit_1e_18 : Number := Number_of_ratio 1 (10 ^ 18).

(** The exact integer an integer-valued number denotes, if it is one. *)
Definition Number_to_integer (x : Number) : option Z :=
  match x with
  | S754_zero _ => Some 0
  | S754_finite s m e =>
      if e <? 0 then
        if Zpos m mod 2 ^ (- e) =? 0
        then Some ((if s then -1 else 1) * (Zpos m / 2 ^ (- e)))
        else None
      else Some ((if s then -1 else 1) * (Zpos m * 2 ^ e))
  | _ => None
  end.

(** A number that is neither negative nor NaN. *)
Definition Number_nonneg (x : Number) : bool :=
  match x with
  | S754_zero _ => true
  | S754_finite s _ _ => negb s
  | S754_infinity s => negb s
  | S754_nan => false
  end.

(** ** The allocation of credit: [processNfts] *)

Definition Address : Type := string.
Definition TokenId : Type := string.

Record SelectedNft : Type := mkSelectedNft {
  nft_address : Address;
  nft_tokenId : TokenId;
  nft_fee : Number
}.

(** The variables [processNfts] declares and its [forEach] callback
    mutates, with the parameter [totalCreditUsed] the callback reassigns. *)
Record AllocState : Type := mkAllocState {
  st_totalFee : Z;
  st_nftAddresses : list Address;
  st_tokenIds : list TokenId;
  st_values : list Z;
  st_creditUsed : list Z;
  st_totalCreditUsed : Number
}.

Definition option_bind {A B : Type} (o : option A) (f : A -> option B)
  : option B :=
  match o with
  | Some a => f a
  | None => None
  end.

Notation "x <-? c ; k" := (option_bind c (fun x => k))
  (at level 61, c at next level, right associativity).

(** [ethers.utils.hexStripZeros(x.toHexString())]: a negative BigNumber
    prints as "-0x..", which [hexStripZeros] rejects as an invalid hex
    string; otherwise the string is kept as the integer it prints. *)
Definition hexStripZeros_toHexString (x : Z) : option Z :=
  if x <? 0 then None else Some x.

(** [nft.fee < 1e-18 ? BigNumber.from("0") : nftFeeWei]. *)
Definition nftFeeBigNumber (fee : Number) (nftFeeWei : Z) : Z :=
  if Number_ltb fee lit_1e_18 then 0 else nftFeeWei.

(** One call of the [forEach] callback; [None] when a conversion throws. *)
Definition processNft (st : AllocState) (nft : SelectedNft)
  : option AllocState :=
  nftFeeWei <-? parseEther (toFixed18 (nft_fee nft)) ;
  _ <-? hexStripZeros_toHexString nftFeeWei ;
  let feeBN := nftFeeBigNumber (nft_fee nft) nftFeeWei in
  totalCreditUsedBigNumber <-? parseEther (toFixed18 (st_totalCreditUsed st)) ;
  let '(pushed, remaining) :=
    if totalCreditUsedBigNumber >=? feeBN
    then (feeBN, totalCreditUsedBigNumber - feeBN)
    else (totalCreditUsedBigNumber, 0) in
  Some {| st_totalFee := st_totalFee st + nftFeeWei;
          st_nftAddresses := st_nftAddresses st ++ [nft_address nft];
          st_tokenIds := st_tokenIds st ++ [nft_tokenId nft];
          st_values := st_values st ++ [nftFeeWei];
          st_creditUsed := st_creditUsed st ++ [pushed];
          st_totalCreditUsed := parseFloat_formatEther remaining |}.

Fixpoint forEach (nfts : list SelectedNft) (st : AllocState)
  : option AllocState :=
  match nfts with
  | [] => Some st
  | nft :: rest => st' <-? processNft st nft ; forEach rest st'
  end.

(** The object [processNfts] returns. [totalFee] and [values] are hex
    strings in the source ([hexStripZeros(x.toHexString())]); they are
    kept as the integers they print. *)
Record AllocationResult : Type := mkAllocationResult {
  totalFee : Z;
  nftAddresses : list Address;
  tokenIds : list TokenId;
  values : list Z;
  creditUsed : list Z
}.

Definition initAllocState (totalCreditUsed : Number) : AllocState :=
  {| st_totalFee := 0; st_nftAddresses := []; st_tokenIds := [];
     st_values := []; st_creditUsed := [];
     st_totalCreditUsed := totalCreditUsed |}.

Definition processNfts (nfts : list SelectedNft) (totalCreditUsed : Number)
  : option AllocationResult :=
  st <-? forEach nfts (initAllocState totalCreditUsed) ;
  totalFee <-? hexStripZeros_toHexString (st_totalFee st) ;
  Some {| totalFee := totalFee;
          nftAddresses := st_nftAddresses st;
          tokenIds := st_tokenIds st;
          values := st_values st;
          creditUsed := st_creditUsed st |}.

(** ** The transaction [checkoutNFTs] builds *)

(** The request handed to [sendTransactions]: the native value attached
    and the arguments of the vault method that is encoded. The one-asset
    branch passes [totalCreditUsed] itself, a number, as the credit. *)
Inductive TxRequest : Type :=
  | Withdraw (value : Z) (address : Address) (tokenId : TokenId)
             (credit : Number)
  | WithdrawMultiple (value : Z) (addresses : list Address)
                     (ids : list TokenId) (vals : list Z)
                     (credits : list Z).

(** [checkoutNFTs] for a non-null [nfts], up to the call of
    [vault.populateTransaction]: the branch on [nfts.length === 1], the
    value of the request and the arguments handed to the vault method.
    The ABI encoding of these arguments is done by ethers and is not
    part of this function; it may still reject them. *)
Definition checkoutNFTs_tx (nfts : list SelectedNft) (totalCreditUsed : Number)
  : option TxRequest :=
  match nfts with
  | [nft] =>
      nftFeeWei <-? parseEther (toFixed18 (nft_fee nft)) ;
      value <-? hexStripZeros_toHexString nftFeeWei ;
      Some (Withdraw value (nft_address nft) (nft_tokenId nft)
                     totalCreditUsed)
  | _ =>
      r <-? processNfts nfts totalCreditUsed ;
      Some (WithdrawMultiple (totalFee r) (nftAddresses r) (tokenIds r)
                             (values r) (creditUsed r))
  end.

(** The allocation of section 4.3 of the specification, on integers:
    each asset takes its fee from the remaining credit, or what is left. *)
Fixpoint greedy_creditUsed (fees : list Z) (remainingCredit : Z) : list Z :=
  match fees with
  | [] => []
  | fee :: rest =>
      if fee <=? remainingCredit
      then fee :: greedy_creditUsed rest (remainingCredit - fee)
      else remainingCredit :: greedy_creditUsed rest 0
  end.

Definition sumZ (l : list Z) : Z := fold_right Z.add 0 l.

(** The fee of an asset in wei, as both [processNfts] and the one-asset
    branch compute it: [parseEther(nft.fee.toFixed(18))]. *)
Definition feeWei (nft : SelectedNft) : option Z :=
  parseEther (toFixed18 (nft_fee nft)).

(** The credit balance in wei, as the callback reads it. *)
Definition creditWei (totalCreditUsed : Number) : option Z :=
  parseEther (toFixed18 totalCreditUsed).

(** What the callback writes back and reads again on the next asset. *)
Definition credit_roundtrip (wei : Z) : option Z :=
  creditWei (parseFloat_formatEther wei).

(** A decimal literal [n / d] of the caller, and an asset with that fee. *)
Definition lit (n d : Z) : Number := Number_of_ratio n d.

Definition asset (id : TokenId) (fee : Number) : SelectedNft :=
  mkSelectedNft "0xA11CE" id fee.

(** A credit balance that reads as a non-negative amount of wei. *)
Definition credit_ok (x : Number) : Prop :=
  forall w, creditWei x = Some w -> 0 <= w.

(** The invariant of the data model, as a property of one call: every
    fee is the attached value plus the credit consumed, and the credit
    consumed in total is within the balance. *)
Definition fee_splits_into_value_and_credit (nfts : list SelectedNft)
  (credit : Number) : Prop :=
  forall r R,
    processNfts nfts credit = Some r ->
    creditWei credit = Some R ->
    (forall i nft fee v c,
        nth_error nfts i = Some nft -> feeWei nft = Some fee ->
        nth_error (values r) i = Some v ->
        nth_error (creditUsed r) i = Some c ->
        fee = v + c)
    /\ sumZ (creditUsed r) <= R.

(** ** Remote calls and their log *)

Inductive ContractName : Type := RENTSTORAGE | VAULT.

(** An argument of a contract call: a string, a BigNumber a previous call
    returned, or [undefined]. *)
Inductive Arg : Type :=
  | ArgString (s : string)
  | ArgBig (z : Z)
  | ArgUndefined.

(** What the program does to the outside world, in the order it does it. *)
Inductive Event : Type :=
  | EvGetNftsForOwner (owner : Address)
  | EvCallWithRetry (c : ContractName) (method : string) (args : list Arg)
  | EvSleep (ms : Z)
  | EvFetch (params : list Arg)
  | EvSetTimeout (delay : Number)
  | EvConsole (err : string).

Definition Log : Type := list Event.

(** A remote read either throws or returns a BigNumber; [Returns None]
    is an empty (falsy) result. *)
Inductive Reply : Type :=
  | Throws (err : string)
  | Returns (v : option Z).

Inductive Outcome (A : Type) : Type :=
  | Ok (a : A)
  | Thrown (err : string).
Arguments Ok {A} a.
Arguments Thrown {A} err.

(** An item of the index, [data.ownedNfts]: the fields [repackageMetadata]
    reads. *)
Inductive AttrValue : Type :=
  | AttrNumber (x : Number)
  | AttrString (s : string).

Record Attribute : Type := mkAttribute {
  trait_type : string;
  attr_value : AttrValue
}.

(** The [attributes] of a metadata object: a falsy value (absent, null,
    empty), an iterable given by its elements, or a truthy value that
    cannot be spread. *)
Inductive RawAttributes : Type :=
  | AttributesFalsy
  | AttributesArray (l : list Attribute)
  | AttributesNotIterable.

Record RawMetadata : Type := mkRawMetadata {
  raw_attributes : RawAttributes;
  raw_image : option string
}.

(** [metadata] is [nft.metadata ?? nft.rawMetadata]: the index may give
    neither. [nft.contract] is an object whose [address] is a string,
    and an image, where there is one, is a string. *)
Record OwnedNft : Type := mkOwnedNft {
  contract_address : Address;
  id_tokenId : option TokenId;
  raw_tokenId : option TokenId;
  metadata : option RawMetadata
}.

(** The collaborators: the index, [CustomContract.callWithRetry] (of
    [customContract.js]), the [fetchFn] handed to [exponentialBackoff],
    [Math.random] and [getNativeCurrency]. Each answer may depend on
    everything that happened before. *)
Record Env : Type := mkEnv {
  getNftsForOwner : Log -> Address -> Outcome (list OwnedNft);
  callWithRetry_reply : Log -> ContractName -> string -> list Arg -> Reply;
  fetchFn : Log -> list Arg -> Reply;
  Math_random : Log -> Number;
  getNativeCurrency : string
}.

(** Computations that log events and may throw. *)
Definition M (A : Type) : Type := Log -> Outcome A * Log.

Definition ret {A : Type} (a : A) : M A := fun log => (Ok a, log).

Definition throw {A : Type} (err : string) : M A :=
  fun log => (Thrown err, log).

Definition bind {A B : Type} (m : M A) (f : A -> M B) : M B :=
  fun log =>
    match m log with
    | (Ok a, log') => f a log'
    | (Thrown err, log') => (Thrown err, log')
    end.

Notation "x <- c ;; k" := (bind c (fun x => k))
  (at level 61, c at next level, right associativity).

Definition callWithRetry (env : Env) (c : ContractName) (method : string)
  (args : list Arg) : M (option Z) :=
  fun log =>
    let log' := log ++ [EvCallWithRetry c method args] in
    match callWithRetry_reply env log c method args with
    | Returns v => (Ok v, log')
    | Throws err => (Thrown err, log')
    end.

Definition alchemy_getNftsForOwner (env : Env) (owner : Address)
  : M (list OwnedNft) :=
  fun log => (getNftsForOwner env log owner, log ++ [EvGetNftsForOwner owner]).

(** ** [repackageMetadata] *)

Record MetaData : Type := mkMetaData {
  md_attributes : list Attribute;
  md_tokenId : option TokenId;
  md_zzVaulted : bool;
  md_image : option string;
  md_address : Address;
  md_uuid : string
}.

(** [a || b] on strings that may be undefined. *)
Definition or_string (a b : option string) : option string :=
  match a with
  | Some EmptyString => b
  | Some s => Some s
  | None => b
  end.

Definition arg_of_tokenId (t : option TokenId) : Arg :=
  match t with
  | Some s => ArgString s
  | None => ArgUndefined
  end.

Definition arg_of_result (v : option Z) : Arg :=
  match v with
  | Some z => ArgBig z
  | None => ArgUndefined
  end.

(** [reply || "0"], as the wei that [formatEther] prints. *)
Definition or_zero (v : option Z) : Z :=
  match v with
  | Some z => z
  | None => 0
  end.

Definition ipfsPrefix : string := "ipfs://".

Definition rewrite_image (uri : string) : string :=
  if (String.length ipfsPrefix <=? String.length uri)%nat
     && String.eqb (substring 0 (String.length ipfsPrefix) uri) ipfsPrefix
  then String.append "https://ipfs.io/ipfs/"
         (substring (String.length ipfsPrefix)
                    (String.length uri - String.length ipfsPrefix) uri)
  else uri.

Definition string_of_tokenId (t : option TokenId) : string :=
  match t with
  | Some s => s
  | None => "undefined"
  end.

(** [...metaData.attributes]: the elements spread, or [None] when the
    spread throws. *)
Definition own_attributes (a : RawAttributes) : option (list Attribute) :=
  match a with
  | AttributesFalsy => Some []
  | AttributesArray l => Some l
  | AttributesNotIterable => None
  end.

(** The arguments of the reads about an item: its contract address and
    its token id. *)
Definition key_args (nft : OwnedNft) : list Arg :=
  [ArgString (contract_address nft);
   arg_of_tokenId (or_string (id_tokenId nft) (raw_tokenId nft))].

(** The object [repackageMetadata] returns for an item, given the
    attributes of its metadata and the price and value read. *)
Definition repackaged (nativeCurrency : string) (nft : OwnedNft)
  (metaData : RawMetadata) (attributes : list Attribute)
  (price value : option Z) : MetaData :=
  let tokenId := or_string (id_tokenId nft) (raw_tokenId nft) in
  {| md_attributes :=
       mkAttribute (String.append nativeCurrency " Value")
         (AttrNumber (parseFloat_formatEther (or_zero value)))
       :: mkAttribute (String.append nativeCurrency " Price / Day")
            (AttrNumber (parseFloat_formatEther (or_zero price)))
       :: attributes;
     md_tokenId := tokenId;
     md_zzVaulted :=
       negb (or_zero price =? 0) || negb (or_zero value =? 0);
     md_image :=
       match raw_image metaData with
       | Some EmptyString => Some EmptyString
       | Some uri => Some (rewrite_image uri)
       | None => None
       end;
     md_address := contract_address nft;
     md_uuid :=
       String.append (contract_address nft) (string_of_tokenId tokenId) |}.

(** Reading [metaData["attributes"]] of an item without metadata throws
    before any read; spreading attributes that are not iterable throws
    after the two reads. *)
Definition repackageMetadata (env : Env) (nft : OwnedNft) : M MetaData :=
  match metadata nft with
  | None => throw "TypeError"
  | Some metaData =>
      price <- callWithRetry env VAULT "getPrice" (key_args nft) ;;
      value <- callWithRetry env VAULT "getValue" (key_args nft) ;;
      match own_attributes (raw_attributes metaData) with
      | None => throw "TypeError"
      | Some attributes =>
          ret (repackaged (getNativeCurrency env) nft metaData attributes
                          price value)
      end
  end.

(** [BigNumber.prototype.toNumber], on the reply of a call. *)
Definition toNumber (v : option Z) : M Z :=
  match v with
  | Some z =>
      if Z.abs z <=? 2 ^ 53 - 1 then ret z else throw "overflow"
  | None => throw "TypeError"
  end.

(** The annotation of one item, the same statements in [getWalletNfts]
    and in [getTotalWalletNfts]: the metadata, then the custody
    identifier, then its lock expiry. *)
Definition annotate (env : Env) (nft : OwnedNft) : M (MetaData * Z) :=
  metaData <- repackageMetadata env nft ;;
  tokenId <- callWithRetry env RENTSTORAGE "getTokenId(address,uint256)"
               [ArgString (md_address metaData);
                arg_of_tokenId (md_tokenId metaData)] ;;
  lockedTill <- callWithRetry env RENTSTORAGE "getLockedTill"
                  [arg_of_result tokenId] ;;
  rentEndTime <- toNumber lockedTill ;;
  ret (metaData, rentEndTime).

(** ** [getWalletNfts] *)

(** [{ ...metaData, end: rentEndTime }]. *)
Record Rental : Type := mkRental {
  rental_metaData : MetaData;
  rental_end : Z
}.

Definition pageSize : Z := 12.

(** [Math.ceil(count / pageSize)] for a positive count. *)
Definition page_of_count (count : Z) : Z := (count + pageSize - 1) / pageSize.

Record PageState : Type := mkPageState {
  ps_count : Z;
  ps_deposits : list MetaData;
  ps_rentals : list Rental
}.

(** [if (!rentEndTime) deposits.push(..) else rentals.push(..)]. *)
Definition classify (st : PageState) (count : Z) (metaData : MetaData)
  (rentEndTime : Z) : PageState :=
  if rentEndTime =? 0
  then mkPageState count (ps_deposits st ++ [metaData]) (ps_rentals st)
  else mkPageState count (ps_deposits st)
                   (ps_rentals st ++ [mkRental metaData rentEndTime]).

Definition page_full (st : PageState) : bool :=
  Z.of_nat (List.length (ps_deposits st) + List.length (ps_rentals st))
  =? pageSize.

(** The [for (const nft of data.ownedNfts)] loop. *)
Fixpoint getWalletNfts_for (env : Env) (page : Z) (ownedNfts : list OwnedNft)
  (st : PageState) : M PageState :=
  match ownedNfts with
  | [] => ret st
  | nft :: rest =>
      let count := ps_count st + 1 in
      if page_of_count count =? page then
        a <- annotate env nft ;;
        let st' := classify st count (fst a) (snd a) in
        if page_full st' then ret st'
        else getWalletNfts_for env page rest st'
      else
        getWalletNfts_for env page rest
          (mkPageState count (ps_deposits st) (ps_rentals st))
  end.

(** The two shapes [getWalletNfts] returns: the array literal [[[], []]]
    and the object [{ rentals, deposits }]. *)
Inductive WalletNfts : Type :=
  | ArrayResult (elements : list (list MetaData))
  | RentalsDeposits (rentals : list Rental) (deposits : list MetaData).

(** A wallet address is falsy when it is undefined or the empty string. *)
Definition truthy (a : option Address) : bool :=
  match a with
  | Some EmptyString => false
  | Some _ => true
  | None => false
  end.

(** [page] is the number the caller passes; a value that is not an
    integer number equals no page, like a page below 1. *)
Definition getWalletNfts (env : Env) (proxyWallet : option Address) (page : Z)
  : M WalletNfts :=
  match proxyWallet with
  | Some owner =>
      if truthy proxyWallet then
        data <- alchemy_getNftsForOwner env owner ;;
        st <- getWalletNfts_for env page data (mkPageState 0 [] []) ;;
        ret (RentalsDeposits (ps_rentals st) (ps_deposits st))
      else ret (ArrayResult [[]; []])
  | None => ret (ArrayResult [[]; []])
  end.

(** What a caller's [const { rentals, deposits } = result] binds: a
    property the value does not have reads as [undefined] ([None]). *)
Definition destructure_rentals_deposits (r : WalletNfts)
  : option (list Rental) * option (list MetaData) :=
  match r with
  | ArrayResult _ => (None, None)
  | RentalsDeposits rentals deposits => (Some rentals, Some deposits)
  end.

(** ** [getTotalWalletNfts] *)

(** [rentedCount] and [ownedCount]: declared before the [while (true)]
    loop, incremented inside its [try] block. *)
Record Counts : Type := mkCounts {
  rentedCount : Z;
  ownedCount : Z
}.

(** The [for (const nft of data.ownedNfts)] loop of the [try] block. The
    counters are variables of the enclosing function: what the loop added
    before a statement throws stays added. *)
Fixpoint countWalk (env : Env) (ownedNfts : list OwnedNft) (c : Counts)
  (log : Log) : Outcome unit * Counts * Log :=
  match ownedNfts with
  | [] => (Ok tt, c, log)
  | nft :: rest =>
      match annotate env nft log with
      | (Ok (_, rentEndTime), log') =>
          let c' :=
            if rentEndTime =? 0
            then mkCounts (rentedCount c) (ownedCount c + 1)
            else mkCounts (rentedCount c + 1) (ownedCount c) in
          countWalk env rest c' log'
      | (Thrown err, log') => (Thrown err, c, log')
      end
  end.

(** The [try] block: fetch the index, then walk it. *)
Definition tryWalk (env : Env) (walletAddress : Address) (c : Counts)
  (log : Log) : Outcome unit * Counts * Log :=
  match alchemy_getNftsForOwner env walletAddress log with
  | (Ok data, log') => countWalk env data c log'
  | (Thrown err, log') => (Thrown err, c, log')
  end.

Definition initialDelay : Z := 1000.

(** The [while (true)] loop. [fuel] bounds the number of passes of the
    model; [None] means the fuel ran out before the loop ended. *)
Fixpoint whileTrue (env : Env) (fuel : nat) (walletAddress : Address)
  (retryCount : Z) (c : Counts) (log : Log)
  : option (Outcome Counts * Log) :=
  match fuel with
  | O => None
  | S fuel' =>
      match tryWalk env walletAddress c log with
      | (Ok _, c', log') => Some (Ok c', log')
      | (Thrown err, c', log') =>
          let log'' :=
            log' ++ [EvConsole err;
                     EvSleep (initialDelay * 2 ^ retryCount)] in
          let retryCount' := retryCount + 1 in
          if retryCount' >=? 5
          then Some (Thrown "Max retry count reached", log'')
          else whileTrue env fuel' walletAddress retryCount' c' log''
      end
  end.

Definition getTotalWalletNfts_fuel (env : Env) (fuel : nat)
  (walletAddress : option Address) (type : string) (log : Log)
  : option (Outcome Z * Log) :=
  match walletAddress with
  | Some owner =>
      if truthy walletAddress then
        match whileTrue env fuel owner 0 (mkCounts 0 0) log with
        | Some (Ok c, log') =>
            Some (Ok (if String.eqb type "rented"
                      then rentedCount c else ownedCount c), log')
        | Some (Thrown err, log') => Some (Thrown err, log')
        | None => None
        end
      else Some (Ok 0, log)
  | None => Some (Ok 0, log)
  end.

(** Five passes are all the loop can make. *)
Definition getTotalWalletNfts (env : Env) (walletAddress : option Address)
  (type : string) (log : Log) : option (Outcome Z * Log) :=
  getTotalWalletNfts_fuel env 5 walletAddress type log.

(** The count of one pass over an index in which no call fails. *)
Definition count_once (env : Env) (owner : Address) (type : string) (log : Log)
  : option Z :=
  match tryWalk env owner (mkCounts 0 0) log with
  | (Ok _, c, _) =>
      Some (if String.eqb type "rented" then rentedCount c else ownedCount c)
  | (Thrown _, _, _) => None
  end.

(** ** [exponentialBackoff] *)

Definition maxRetries : Z := 5.
Definition baseDelay : Z := 250.

(** What [exponentialBackoff] resolves to: the formatted reply (kept as
    the wei [formatEther] prints) or [null]. *)
Inductive BackoffResult : Type :=
  | Formatted (wei : Z)
  | Null.

(** [baseDelay * (1 + Math.random())]. *)
Definition backoff_delay (r : Number) : Number :=
  SFmul prec emax (Number_of_Z baseDelay)
        (SFadd prec emax (Number_of_Z 1) r).

(** The [for (let i = 0; i <= maxRetries; i++)] loop, with [iterations]
    the number of values of [i] still to run. Leaving the loop returns
    [null]. *)
Fixpoint exponentialBackoff_for (env : Env) (iterations : nat) (i : Z)
  (params : list Arg) (log : Log) : BackoffResult * Log :=
  match iterations with
  | O => (Null, log)
  | S rest =>
      let log' := log ++ [EvFetch params] in
      match fetchFn env log params with
      | Returns result => (Formatted (or_zero result), log')
      | Throws err =>
          if i <? maxRetries then
            exponentialBackoff_for env rest (i + 1) params
              (log' ++ [EvSetTimeout (backoff_delay (Math_random env log'))])
          else
            exponentialBackoff_for env rest (i + 1) params
              (log' ++ [EvConsole err])
      end
  end.

Definition exponentialBackoff (env : Env) (params : list Arg) (log : Log)
  : BackoffResult * Log :=
  exponentialBackoff_for env (Z.to_nat (maxRetries + 1)) 0 params log.

(** The number of times [fetchFn] was called in a log. *)
Definition is_fetch (ev : Event) : bool :=
  match ev with
  | EvFetch _ => true
  | _ => false
  end.

Definition fetch_count (log : Log) : nat := List.length (filter is_fetch log).

(** ** Reading a log *)

(** The item a log entry looks the custody identifier up for: the
    arguments of a [getTokenId(address,uint256)] call. *)
Definition annotation_of (ev : Event) : option (Address * option TokenId) :=
  match ev with
  | EvCallWithRetry RENTSTORAGE method [ArgString a; t] =>
      if String.eqb method "getTokenId(address,uint256)"
      then Some (a, match t with ArgString s => Some s | _ => None end)
      else None
  | _ => None
  end.

(** The items annotated in a log, in order. *)
Definition annotated (log : Log) : list (Address * option TokenId) :=
  flat_map (fun ev => match annotation_of ev with
                      | Some k => [k]
                      | None => []
                      end) log.

Definition is_lockedTill (ev : Event) : bool :=
  match ev with
  | EvCallWithRetry RENTSTORAGE method _ => String.eqb method "getLockedTill"
  | _ => false
  end.

(** The number of lock-expiry reads in a log. *)
Definition lockedTill_count (log : Log) : nat :=
  List.length (filter is_lockedTill log).

Definition key_of (nft : OwnedNft) : Address * option TokenId :=
  (contract_address nft, or_string (id_tokenId nft) (raw_tokenId nft)).

Definition md_key (m : MetaData) : Address * option TokenId :=
  (md_address m, md_tokenId m).

(** The items of the index on a page: items
    [pageSize * (page - 1) + 1 .. pageSize * page], counted from 1. *)
Definition page_slice (page : Z) (ownedNfts : list OwnedNft) : list OwnedNft :=
  if 1 <=? page
  then firstn (Z.to_nat pageSize)
              (skipn (Z.to_nat (pageSize * (page - 1))) ownedNfts)
  else [].

(** Annotating and classifying every item of a list, in order. *)
Fixpoint classify_all (env : Env) (items : list OwnedNft) (st : PageState)
  : M PageState :=
  match items with
  | [] => ret st
  | nft :: rest =>
      a <- annotate env nft ;;
      classify_all env rest (classify st (ps_count st + 1) (fst a) (snd a))
  end.

(** The output lists as a partition of annotated items: the unlocked
    ones are the deposits, the locked ones the rentals. *)
Definition deposits_of (anns : list (MetaData * Z)) : list MetaData :=
  map fst (filter (fun a => snd a =? 0) anns).

Definition rentals_of (anns : list (MetaData * Z)) : list Rental :=
  map (fun a => mkRental (fst a) (snd a))
      (filter (fun a => negb (snd a =? 0)) anns).

(** The number of times the index was fetched, and the delays slept, in
    a log. *)
Definition index_fetches (log : Log) : nat :=
  List.length (filter (fun ev => match ev with
                                 | EvGetNftsForOwner _ => true
                                 | _ => false
                                 end) log).

Definition sleeps (log : Log) : list Z :=
  flat_map (fun ev => match ev with EvSleep ms => [ms] | _ => [] end) log.





(** ** Test doubles *)

(** An index of [n] items of one collection, with token ids "A", "B",
    ...; the custody identifier of the k-th item is [k]. *)
Definition token_name (k : nat) : TokenId :=
  String (ascii_of_nat (64 + k)) EmptyString.

Definition item (k : nat) : OwnedNft :=
  mkOwnedNft "0xC0FFEE" (Some (token_name k)) None
             (Some (mkRawMetadata AttributesFalsy None)).

Definition index_of_size (n : nat) : list OwnedNft := map item (seq 1 n).

Definition custody_id (args : list Arg) : Z :=
  match args with
  | [_; ArgString (String c EmptyString)] => Z.of_nat (nat_of_ascii c) - 64
  | _ => 0
  end.

(** A ledger on which every call succeeds; the items with an even custody
    identifier are locked. *)
Definition steady_reply (c : ContractName) (method : string) (args : list Arg)
  : Reply :=
  match c with
  | VAULT => Returns (Some 0)
  | RENTSTORAGE =>
      if String.eqb method "getLockedTill" then
        match args with
        | [ArgBig k] =>
            Returns (Some (if Z.even k then 1700000000 + k else 0))
        | _ => Returns (Some 0)
        end
      else Returns (Some (custody_id args))
  end.

Definition half : Number := Number_of_ratio 1 2.

Definition steady_env (n : nat) : Env :=
  {| getNftsForOwner := fun _ _ => Ok (index_of_size n);
     callWithRetry_reply := fun _ => steady_reply;
     fetchFn := fun _ _ => Returns (Some 7);
     Math_random := fun _ => half;
     getNativeCurrency := "ETH" |}.

(** A ledger on which nothing is locked and the custody-identifier
    lookup of the [k]-th item throws the first [failures] times it is
    made. *)
Definition times_annotated (k : nat) (log : Log) : nat :=
  List.length
    (filter (fun key =>
               match snd key with
               | Some t => String.eqb t (token_name k)
               | None => false
               end) (annotated log)).

Definition flaky_reply (k failures : nat) (log : Log) (c : ContractName)
  (method : string) (args : list Arg) : Reply :=
  match c with
  | VAULT => Returns (Some 0)
  | RENTSTORAGE =>
      if String.eqb method "getLockedTill" then Returns (Some 0)
      else if (custody_id args =? Z.of_nat k)
              && (times_annotated k log <? failures)%nat
           then Throws "missing response"
           else Returns (Some (custody_id args))
  end.

Definition flaky_env (n k failures : nat) : Env :=
  {| getNftsForOwner := fun _ _ => Ok (index_of_size n);
     callWithRetry_reply := flaky_reply k failures;
     fetchFn := fun _ _ => Returns (Some 7);
     Math_random := fun _ => half;
     getNativeCurrency := "ETH" |}.


(** * The rest of the module *)

(** ** Networks: [chainIdToNetwork], [isCorrectChainId], [getChainInfo],
    [setChainId] *)

(** The constants [CHAIN] and [NETWORK] of [types/networks]: hex chain
    ids and network names. They are ordinary keys: none is [__proto__],
    whose assignment sets the prototype of an object instead of a key. *)
Record ChainIds : Type := mkChainIds {
  CHAIN_MAINNET : string;
  CHAIN_POLYGON : string;
  CHAIN_GOERLI : string;
  CHAIN_MUMBAI : string
}.

Record NetworkNames : Type := mkNetworkNames {
  NETWORK_MAINNET : string;
  NETWORK_POLYGON : string;
  NETWORK_GOERLI : string;
  NETWORK_MUMBAI : string
}.

(** An object used as a map from strings: [o[k] = v] puts the entry in
    front, [o[k]] reads the entry assigned last. *)
Definition JsObject (V : Type) : Type := list (string * V).

Definition obj_set {V : Type} (k : string) (v : V) (o : JsObject V)
  : JsObject V := (k, v) :: o.

Fixpoint obj_get {V : Type} (k : string) (o : JsObject V) : option V :=
  match o with
  | [] => None
  | (k', v) :: rest => if String.eqb k k' then Some v else obj_get k rest
  end.

(** The network name [chainIdToName[chainId]]. [None] stands for what is
    no string: [undefined], and the member of [Object.prototype] read
    for an inherited name, which no list of network names includes. *)
Definition chainIdToNetwork (C : ChainIds) (N : NetworkNames) (chainId : string)
  : option string :=
  let chainIdToName := [] in
  let chainIdToName := obj_set (CHAIN_MAINNET C) (NETWORK_MAINNET N) chainIdToName in
  let chainIdToName := obj_set (CHAIN_POLYGON C) (NETWORK_POLYGON N) chainIdToName in
  let chainIdToName := obj_set (CHAIN_GOERLI C) (NETWORK_GOERLI N) chainIdToName in
  let chainIdToName := obj_set (CHAIN_MUMBAI C) (NETWORK_MUMBAI N) chainIdToName in
  obj_get chainId chainIdToName.

(** [array.includes(x)] for an array of strings and an [x] that may be
    undefined. *)
Definition includes (array : list string) (x : option string) : bool :=
  match x with
  | Some s => existsb (String.eqb s) array
  | None => false
  end.

(** [compatibleChains] is [JSON.parse(process.env.REACT_APP_CHAINS)], the
    value of [getCompatibleChains()]. *)
Definition isCorrectChainId (C : ChainIds) (N : NetworkNames)
  (compatibleChains : list string) (chainId : string) : bool :=
  includes compatibleChains (chainIdToNetwork C N chainId).

Record NativeCurrency : Type := mkNativeCurrency {
  nc_decimals : Z;
  nc_symbol : string;
  nc_name : string
}.

(** The [info] field of a network description; a field that is [null]
    or absent is [None]. *)
Record ChainParams : Type := mkChainParams {
  cp_chainId : option string;
  cp_blockExplorerUrls : list string;
  cp_rpcUrls : option (list (option string));
  cp_nativeCurrency : option NativeCurrency;
  cp_chainName : option string
}.

Record ChainInfo : Type := mkChainInfo {
  isCustom : option bool;
  info : ChainParams
}.

Definition ethNativeCurrency : NativeCurrency := mkNativeCurrency 18 "ETH" "ETH".
Definition maticNativeCurrency : NativeCurrency :=
  mkNativeCurrency 18 "MATIC" "MATIC".

Definition empty_ChainInfo : ChainInfo :=
  mkChainInfo None (mkChainParams None [] None None None).

(** The names every object inherits from [Object.prototype], where no
    script has added to it: reading one of them on an object that has no
    such key of its own gives a function or an object, a truthy value
    that has neither [isCustom] nor [info]. *)
Definition Object_prototype_names : list string :=
  ["constructor"; "hasOwnProperty"; "isPrototypeOf"; "propertyIsEnumerable";
   "toLocaleString"; "toString"; "valueOf"; "__proto__";
   "__defineGetter__"; "__defineSetter__"; "__lookupGetter__";
   "__lookupSetter__"].

Definition inherited (k : string) : bool :=
  existsb (String.eqb k) Object_prototype_names.

(** What [getChainInfo] returns: a network description, or the member
    of [Object.prototype] that [info[network]] reads for such a name. *)
Inductive ChainInfoValue : Type :=
  | Description (i : ChainInfo)
  | InheritedMember (name : string).

(** [polygonRpc] and [mumbaiRpc] are [process.env.REACT_APP_POLYGON_RPC]
    and [process.env.REACT_APP_MUMBAI_RPC]. *)
Definition getChainInfo (C : ChainIds) (N : NetworkNames)
  (polygonRpc mumbaiRpc : option string) (network : string) : ChainInfoValue :=
  let info := [] in
  let info := obj_set (NETWORK_MAINNET N)
    (mkChainInfo (Some false)
       (mkChainParams (Some (CHAIN_MAINNET C)) ["https://etherscan.io/"] None
          (Some ethNativeCurrency) (Some "Ethereum"))) info in
  let info := obj_set (NETWORK_GOERLI N)
    (mkChainInfo (Some false)
       (mkChainParams (Some (CHAIN_GOERLI C)) ["https://goerli.etherscan.io/"]
          None (Some ethNativeCurrency) (Some "Goerli"))) info in
  let info := obj_set (NETWORK_POLYGON N)
    (mkChainInfo (Some true)
       (mkChainParams (Some (CHAIN_POLYGON C)) ["https://polygonscan.com"]
          (Some [polygonRpc]) (Some maticNativeCurrency) (Some "Polygon")))
    info in
  let info := obj_set (NETWORK_MUMBAI N)
    (mkChainInfo (Some true)
       (mkChainParams (Some (CHAIN_MUMBAI C))
          ["https://mumbai.polygonscan.com"]
          (Some [mumbaiRpc]) (Some maticNativeCurrency) (Some "Mumbai")))
    info in
  match obj_get network info with
  | Some i => Description i
  | None =>
      if inherited network then InheritedMember network
      else Description empty_ChainInfo
  end.

(** The argument of [window.ethereum.request] in [setChainId]. *)
Inductive EthereumRequest : Type :=
  | wallet_switchEthereumChain (chainId : option string)
  | wallet_addEthereumChain (params : ChainParams).

(** [!isCustom]: [null] and [false] are falsy. *)
Definition is_falsy_flag (b : option bool) : bool :=
  match b with
  | Some true => false
  | _ => true
  end.

(** The request [setChainId] sends to the wallet; what it resolves to is
    the wallet's answer. A member of [Object.prototype] has neither
    [isCustom] nor [info]: reading [info.chainId] throws before any
    request. *)
Definition setChainId_request (C : ChainIds) (N : NetworkNames)
  (polygonRpc mumbaiRpc : option string) (network : string)
  : Outcome EthereumRequest :=
  match getChainInfo C N polygonRpc mumbaiRpc network with
  | Description i =>
      if is_falsy_flag (isCustom i)
      then Ok (wallet_switchEthereumChain (cp_chainId (info i)))
      else Ok (wallet_addEthereumChain (info i))
  | InheritedMember _ => Thrown "TypeError"
  end.

(** ** [getRentalAmountInfo] *)

(** [try { body } catch (error) { handler }]. *)
Definition try_catch {A : Type} (body : M A) (handler : string -> M A) : M A :=
  fun log =>
    match body log with
    | (Ok a, log') => (Ok a, log')
    | (Thrown err, log') => handler err log'
    end.

Definition console_log (err : string) : M unit :=
  fun log => (Ok tt, log ++ [EvConsole err]).

(** An amount as [getRentalAmountInfo] returns it: the string
    [formatEther] prints for an amount of wei, or a number. *)
Inductive JsAmount : Type :=
  | AmountString (wei : Z)
  | AmountNumber (x : Number).

(** [Number(a)], the operand of a subtraction. *)
Definition amount_to_Number (a : JsAmount) : Number :=
  match a with
  | AmountString wei => parseFloat_formatEther wei
  | AmountNumber x => x
  end.

Definition Number_zero : Number := S754_zero false.

Definition getRentalAmountInfo (env : Env) (proxyWallet : option Address)
  : M (JsAmount * JsAmount) :=
  try_catch
    (reply <- callWithRetry env VAULT "getMaxRentalAmount" [] ;;
     let maxRentalAmount := AmountString (or_zero reply) in
     currentRentalAmount <-
       (if truthy proxyWallet then
          reply' <- callWithRetry env VAULT "getRentalAmount"
                      [arg_of_tokenId proxyWallet] ;;
          ret (AmountString (or_zero reply'))
        else ret (AmountNumber Number_zero)) ;;
     ret (AmountNumber
            (SFsub prec emax (amount_to_Number maxRentalAmount)
                   (amount_to_Number currentRentalAmount)),
          maxRentalAmount))
    (fun error =>
       _ <- console_log error ;;
       ret (AmountNumber Number_zero, AmountNumber Number_zero)).

(** ** [getVaultNFTs] *)

Record VaultPageState : Type := mkVaultPageState {
  vs_count : Z;
  vs_nfts : list MetaData
}.

(** The [for await (const nft of nftsIterator)] loop, over the items the
    iterator yields. *)
Fixpoint getVaultNFTs_for (env : Env) (page : Z) (yielded : list OwnedNft)
  (st : VaultPageState) : M VaultPageState :=
  match yielded with
  | [] => ret st
  | nft :: rest =>
      let count := vs_count st + 1 in
      st' <- (if page_of_count count =? page then
                metaData <- repackageMetadata env nft ;;
                ret (mkVaultPageState count (vs_nfts st ++ [metaData]))
              else ret (mkVaultPageState count (vs_nfts st))) ;;
      if Z.of_nat (List.length (vs_nfts st')) =? pageSize then ret st'
      else getVaultNFTs_for env page rest st'
  end.

(** [getVaultNFTs(addresses, page)]. [chainId] is what
    [await getChainId()] does, return a chain id or throw; [yielded] are
    the items [alchemy.nft.getNftsForOwnerIterator] yields for the vault
    and these contract addresses. *)
Definition getVaultNFTs (env : Env) (C : ChainIds) (N : NetworkNames)
  (chainId : Outcome string) (yielded : list OwnedNft)
  (addresses : option (list Address)) (page : Z) : M (list MetaData) :=
  match addresses with
  | None => ret []
  | Some [] => ret []
  | Some _ =>
      match chainId with
      | Thrown err => throw err
      | Ok id =>
          let activeNetwork := chainIdToNetwork C N id in
          st <- getVaultNFTs_for env page yielded (mkVaultPageState 0 []) ;;
          ret (vs_nfts st)
      end
  end.

(** Repackaging every item of a list, in order. *)
Fixpoint repackage_all (env : Env) (items : list OwnedNft)
  (st : VaultPageState) : M VaultPageState :=
  match items with
  | [] => ret st
  | nft :: rest =>
      metaData <- repackageMetadata env nft ;;
      repackage_all env rest
        (mkVaultPageState (vs_count st + 1) (vs_nfts st ++ [metaData]))
  end.

(** ** What a walk over items did *)

(** The four reads of the annotation of an item, given the custody
    identifier read. *)
Definition annotation_calls (nft : OwnedNft) (tokenId : option Z) : list Event :=
  [EvCallWithRetry VAULT "getPrice" (key_args nft);
   EvCallWithRetry VAULT "getValue" (key_args nft);
   EvCallWithRetry RENTSTORAGE "getTokenId(address,uint256)" (key_args nft);
   EvCallWithRetry RENTSTORAGE "getLockedTill" [arg_of_result tokenId]].

(** [annotation_trace env log items anns log'] : starting from [log],
    each item in turn had its price and value read and was repackaged
    with them, then its custody identifier read from its address and
    token id, then the lock expiry of that identifier read; the reads
    returned what the ledger answers at that point, nothing else
    happened, and [anns] pairs each repackaged item with its lock
    expiry. *)
Inductive annotation_trace (env : Env)
  : Log -> list OwnedNft -> list (MetaData * Z) -> Log -> Prop :=
  | trace_done (log : Log) : annotation_trace env log [] [] log
  | trace_item (log log' : Log) (nft : OwnedNft) (rest : list OwnedNft)
      (metaData : RawMetadata) (attributes : list Attribute)
      (price value tokenId : option Z) (rentEndTime : Z)
      (anns : list (MetaData * Z)) :
      metadata nft = Some metaData ->
      own_attributes (raw_attributes metaData) = Some attributes ->
      callWithRetry_reply env log VAULT "getPrice" (key_args nft)
      = Returns price ->
      callWithRetry_reply env
        (log ++ firstn 1 (annotation_calls nft tokenId))
        VAULT "getValue" (key_args nft)
      = Returns value ->
      callWithRetry_reply env
        (log ++ firstn 2 (annotation_calls nft tokenId))
        RENTSTORAGE "getTokenId(address,uint256)" (key_args nft)
      = Returns tokenId ->
      callWithRetry_reply env
        (log ++ firstn 3 (annotation_calls nft tokenId))
        RENTSTORAGE "getLockedTill" [arg_of_result tokenId]
      = Returns (Some rentEndTime) ->
      Z.abs rentEndTime <= 2 ^ 53 - 1 ->
      annotation_trace env (log ++ annotation_calls nft tokenId) rest anns log' ->
      annotation_trace env log (nft :: rest)
        ((repackaged (getNativeCurrency env) nft metaData attributes
                     price value, rentEndTime) :: anns) log'.

(** The two reads of the repackaging of an item. *)
Definition repackage_calls (nft : OwnedNft) : list Event :=
  [EvCallWithRetry VAULT "getPrice" (key_args nft);
   EvCallWithRetry VAULT "getValue" (key_args nft)].

(** [repackage_trace env log items mds log'] : starting from [log], each
    item in turn had its price and value read and was repackaged with
    them; nothing else happened. *)
Inductive repackage_trace (env : Env)
  : Log -> list OwnedNft -> list MetaData -> Log -> Prop :=
  | repackage_done (log : Log) : repackage_trace env log [] [] log
  | repackage_item (log log' : Log) (nft : OwnedNft) (rest : list OwnedNft)
      (metaData : RawMetadata) (attributes : list Attribute)
      (price value : option Z) (mds : list MetaData) :
      metadata nft = Some metaData ->
      own_attributes (raw_attributes metaData) = Some attributes ->
      callWithRetry_reply env log VAULT "getPrice" (key_args nft)
      = Returns price ->
      callWithRetry_reply env (log ++ firstn 1 (repackage_calls nft))
        VAULT "getValue" (key_args nft)
      = Returns value ->
      repackage_trace env (log ++ repackage_calls nft) rest mds log' ->
      repackage_trace env log (nft :: rest)
        (repackaged (getNativeCurrency env) nft metaData attributes
                    price value :: mds) log'.

(** An item [repackageMetadata] can repackage: it has metadata, and its
    attributes can be spread. *)
Definition repackable (nft : OwnedNft) : bool :=
  match metadata nft with
  | Some metaData =>
      match own_attributes (raw_attributes metaData) with
      | Some _ => true
      | None => false
      end
  | None => false
  end.

(** ** Reading logs and replies *)

Definition is_timeout (ev : Event) : bool :=
  match ev with
  | EvSetTimeout _ => true
  | _ => false
  end.

Definition timeout_count (log : Log) : nat := List.length (filter is_timeout log).

Definition is_console (ev : Event) : bool :=
  match ev with
  | EvConsole _ => true
  | _ => false
  end.

Definition console_count (log : Log) : nat := List.length (filter is_console log).

Definition is_call (ev : Event) : bool :=
  match ev with
  | EvCallWithRetry _ _ _ => true
  | _ => false
  end.

(** The delays of the retries of [getTotalWalletNfts], in order. *)
Definition retry_schedule : list Z := [1000; 2000; 4000; 8000; 16000].

(** A ledger whose answers do not depend on what happened before. *)
Definition stable (env : Env) : Prop :=
  (forall log c method args,
      callWithRetry_reply env log c method args
      = callWithRetry_reply env [] c method args) /\
  (forall log owner, getNftsForOwner env log owner = getNftsForOwner env [] owner).

(** A ledger on which every contract call returns a BigNumber that fits
    a JavaScript number. *)
Definition healthy (env : Env) : Prop :=
  forall log c method args,
    exists z, callWithRetry_reply env log c method args = Returns (Some z)
              /\ Z.abs z <= 2 ^ 53 - 1.

(** The chain ids and network names in use. *)
Definition chain_ids : ChainIds := mkChainIds "0x1" "0x89" "0x5" "0x13881".

Definition network_names : NetworkNames :=
  mkNetworkNames "mainnet" "polygon" "goerli" "mumbai".

(** The native value a request attaches. *)
Definition tx_value (tx : TxRequest) : Z :=
  match tx with
  | Withdraw value _ _ _ => value
  | WithdrawMultiple value _ _ _ _ => value
  end.

(** The delays slept after [n] failed passes, the first of them being
    pass number [retryCount]. *)
Definition delays (retryCount : Z) (n : nat) : list Z :=
  map (fun k => initialDelay * 2 ^ (retryCount + Z.of_nat k)) (seq 0 n).

(** A vault whose maximal rental amount is 5 ether, of which 2 ether are
    rented. *)
Definition rental_env : Env :=
  {| getNftsForOwner := fun _ _ => Ok [];
     callWithRetry_reply := fun _ _ method _ =>
       if String.eqb method "getMaxRentalAmount"
       then Returns (Some (5 * 10 ^ 18)) else Returns (Some (2 * 10 ^ 18));
     fetchFn := fun _ _ => Returns None;
     Math_random := fun _ => half;
     getNativeCurrency := "ETH" |}.

(** A ledger on which every call returns zero: nothing is locked and
    nothing is priced. *)
Definition unlocked_env (n : nat) : Env :=
  {| getNftsForOwner := fun _ _ => Ok (index_of_size n);
     callWithRetry_reply := fun _ _ _ _ => Returns (Some 0);
     fetchFn := fun _ _ => Returns (Some 0);
     Math_random := fun _ => half;
     getNativeCurrency := "ETH" |}.

Ltac split_eqb :=
  repeat match goal with
         | |- context [String.eqb ?a ?b] =>
             destruct (String.eqb_spec a b); subst
         | H : context [String.eqb ?a ?b] |- _ =>
             destruct (String.eqb_spec a b); subst
         end.

(** * Properties *)

(** ** Conversions *)

Lemma lit_1e_18_value :
  lit_1e_18 = S754_finite false 5192296858534828 (-112).
Proof. vm_compute. reflexivity. Qed.

(** The literals of the examples below, and what the conversions make
    of them: [0.3] is the double [0x1.3333333333333p-2], and
    [(0.3).toFixed(18)] is "0.299999999999999989". *)
Example lit_0_3 : lit 3 10 = S754_finite false 5404319552844595 (-54).
Proof. vm_compute. reflexivity. Qed.

Example toFixed18_0_3 : toFixed18 (lit 3 10) = Fixed18 false 299999999999999989.
Proof. vm_compute. reflexivity. Qed.

Example toFixed18_tie : toFixed18 (lit 1 (2 ^ 19)) = Fixed18 false 1907348632813.
Proof. vm_compute. reflexivity. Qed.

Example toFixed18_1e21 : toFixed18 (lit (10 ^ 21) 1) = NotFixed.
Proof. vm_compute. reflexivity. Qed.

(** [parseFloat("2.700000000000000011")] is the double
    [2.70000000000000017763568394002504646778106689453125]. *)
Example parseFloat_formatEther_2_7 :
  parseFloat_formatEther 2700000000000000011
  = S754_finite false 6079859496950170 (-51)
  /\ 6079859496950170 * 10 ^ 50
     = 270000000000000017763568394002504646778106689453125 * 2 ^ 51.
Proof. split; vm_compute; reflexivity. Qed.

Lemma fixed18_digits_nonneg (m : positive) (e : Z) : 0 <= fixed18_digits m e.
Proof.
  unfold fixed18_digits. destruct (e <? 0) eqn:He.
  - assert (0 < 2 ^ (- e)) by (apply Z.pow_pos_nonneg; lia).
    apply Z.div_pos; unfold WEI_PER_ETHER; lia.
  - apply Z.ltb_ge in He.
    assert (0 < 2 ^ e) by (apply Z.pow_pos_nonneg; lia).
    unfold WEI_PER_ETHER; nia.
Qed.

Lemma toFixed18_finite (s : bool) (m : positive) (e : Z) (s' : bool) (d : Z) :
  toFixed18 (S754_finite s m e) = Fixed18 s' d -> s' = s /\ 0 <= d.
Proof.
  unfold toFixed18. destruct (at_least_1e21 m e); [discriminate |].
  intros H. injection H as <- <-.
  split; [reflexivity | apply fixed18_digits_nonneg].
Qed.

Lemma toFixed18_digits_nonneg (x : Number) (s : bool) (d : Z) :
  toFixed18 x = Fixed18 s d -> 0 <= d.
Proof.
  destruct x as [s0 | s0 | | s0 m e]; try discriminate.
  - intros H; inversion H; lia.
  - intros H; apply toFixed18_finite in H; tauto.
Qed.

Lemma creditWei_nonneg (x : Number) (w : Z) :
  Number_nonneg x = true -> creditWei x = Some w -> 0 <= w.
Proof.
  unfold creditWei, parseEther.
  destruct (toFixed18 x) as [s d |] eqn:Hx; [| discriminate].
  intros Hn H; inversion H; subst.
  destruct x as [s0 | s0 | | s0 m e]; try discriminate.
  - inversion Hx; subst; lia.
  - apply toFixed18_finite in Hx. destruct Hx as [-> Hd].
    simpl in Hn. apply negb_true_iff in Hn; subst s0. exact Hd.
Qed.

(** Rounding a quotient of positive integers never produces a negative
    number. *)
Lemma binary_round_aux_sign (s : bool) (m e : Z) (l : location) :
  match binary_round_aux prec emax s m e l with
  | S754_zero s' | S754_infinity s' | S754_finite s' _ _ => s' = s
  | S754_nan => True
  end.
Proof.
  unfold binary_round_aux.
  destruct (shr_fexp prec emax m e l) as [mrs' e'].
  destruct (shr_fexp prec emax _ e' loc_Exact) as [mrs'' e''].
  destruct (shr_m mrs''); auto.
  destruct (e'' <=? emax - prec); auto.
Qed.

Lemma parseFloat_formatEther_nonneg (wei : Z) :
  0 <= wei ->
  Number_nonneg (parseFloat_formatEther wei) = true
  \/ parseFloat_formatEther wei = S754_nan.
Proof.
  intros Hw. unfold parseFloat_formatEther, Number_of_ratio.
  destruct wei as [| p | p]; [left; reflexivity | | lia].
  change WEI_PER_ETHER with (Z.pos (Pos.pow 10 18)).
  cbv beta iota.
  unfold SFdiv.
  destruct (SFdiv_core_binary prec emax (Z.pos p) 0 (Z.pos (10 ^ 18)) 0)
    as [[mz ez] lz].
  pose proof (binary_round_aux_sign (xorb false false) mz ez lz) as Hs.
  destruct (binary_round_aux prec emax (xorb false false) mz ez lz);
    simpl in *; subst; auto.
Qed.

Lemma credit_roundtrip_nonneg (wei w : Z) :
  0 <= wei -> credit_roundtrip wei = Some w -> 0 <= w.
Proof.
  intros Hw H. unfold credit_roundtrip in H.
  destruct (parseFloat_formatEther_nonneg wei Hw) as [Hn | Hn].
  - eapply creditWei_nonneg; eauto.
  - rewrite Hn in H. discriminate.
Qed.

Lemma nftFeeBigNumber_nonneg (nft : SelectedNft) (v : Z) :
  feeWei nft = Some v -> 0 <= nftFeeBigNumber (nft_fee nft) v.
Proof.
  unfold feeWei, nftFeeBigNumber, Number_ltb, parseEther.
  destruct (toFixed18 (nft_fee nft)) as [s d |] eqn:Hx; [| discriminate].
  intros H; inversion H; subst; clear H.
  rewrite lit_1e_18_value.
  destruct (nft_fee nft) as [s0 | s0 | | s0 m e];
    [ destruct s0; simpl; lia | discriminate | discriminate | ].
  apply toFixed18_finite in Hx. destruct Hx as [-> Hd].
  destruct s0; [simpl; lia |].
  destruct (SFltb _ _); lia.
Qed.

Lemma nftFeeBigNumber_le_fee (nft : SelectedNft) (v : Z) :
  Number_nonneg (nft_fee nft) = true ->
  feeWei nft = Some v -> nftFeeBigNumber (nft_fee nft) v <= v.
Proof.
  intros Hn Hv. unfold nftFeeBigNumber.
  destruct (Number_ltb _ _); [| lia].
  eapply creditWei_nonneg; eauto.
Qed.

(** ** The allocation loop *)

(** A hex string that [hexStripZeros] accepts prints a natural number. *)
Lemma hexStripZeros_toHexString_inv (x y : Z) :
  hexStripZeros_toHexString x = Some y -> y = x /\ 0 <= x.
Proof.
  unfold hexStripZeros_toHexString.
  destruct (x <? 0) eqn:E; [discriminate |].
  intros [= <-]. apply Z.ltb_ge in E. auto.
Qed.

(** One asset: the credit pushed is the smaller of the credit-eligible
    fee and the balance read, and the balance written back is the rest,
    through a number. *)
Lemma processNft_inv (st st' : AllocState) (nft : SelectedNft) :
  processNft st nft = Some st' ->
  exists v R,
    feeWei nft = Some v /\
    creditWei (st_totalCreditUsed st) = Some R /\
    st_totalFee st' = st_totalFee st + v /\
    st_nftAddresses st' = st_nftAddresses st ++ [nft_address nft] /\
    st_tokenIds st' = st_tokenIds st ++ [nft_tokenId nft] /\
    st_values st' = st_values st ++ [v] /\
    st_creditUsed st' =
      st_creditUsed st ++ [Z.min (nftFeeBigNumber (nft_fee nft) v) R] /\
    st_totalCreditUsed st' =
      parseFloat_formatEther (R - Z.min (nftFeeBigNumber (nft_fee nft) v) R).
Proof.
  unfold processNft, feeWei, creditWei.
  destruct (parseEther (toFixed18 (nft_fee nft))) as [v |]; [| discriminate].
  cbn [option_bind].
  destruct (hexStripZeros_toHexString v); [| discriminate].
  cbn [option_bind].
  destruct (parseEther (toFixed18 (st_totalCreditUsed st))) as [R |];
    [| discriminate].
  cbn [option_bind].
  destruct (R >=? nftFeeBigNumber (nft_fee nft) v) eqn:Hge;
    intros [= <-]; exists v, R; cbn.
  - apply Z.geb_le in Hge. rewrite Z.min_l by lia. repeat split.
  - rewrite Z.geb_leb in Hge. apply Z.leb_gt in Hge.
    rewrite Z.min_r by lia. rewrite Z.sub_diag. repeat split.
Qed.

Lemma processNft_credit_ok (st st' : AllocState) (nft : SelectedNft) :
  processNft st nft = Some st' -> credit_ok (st_totalCreditUsed st').
Proof.
  intros H. apply processNft_inv in H.
  destruct H as (v & R & _ & _ & _ & _ & _ & _ & _ & Hc).
  rewrite Hc. intros w Hw.
  apply (credit_roundtrip_nonneg (R - Z.min (nftFeeBigNumber (nft_fee nft) v) R)).
  - lia.
  - exact Hw.
Qed.

Lemma forEach_inv (nfts : list SelectedNft) :
  forall st st', forEach nfts st = Some st' ->
  exists vs cs,
    map feeWei nfts = map Some vs /\
    List.length cs = List.length nfts /\
    st_totalFee st' = st_totalFee st + sumZ vs /\
    st_nftAddresses st' = st_nftAddresses st ++ map nft_address nfts /\
    st_tokenIds st' = st_tokenIds st ++ map nft_tokenId nfts /\
    st_values st' = st_values st ++ vs /\
    st_creditUsed st' = st_creditUsed st ++ cs /\
    (forall i nft v c,
        nth_error nfts i = Some nft -> nth_error vs i = Some v ->
        nth_error cs i = Some c ->
        c <= nftFeeBigNumber (nft_fee nft) v) /\
    (credit_ok (st_totalCreditUsed st) -> Forall (fun c => 0 <= c) cs) /\
    (forall R c, creditWei (st_totalCreditUsed st) = Some R ->
                 nth_error cs 0 = Some c -> c <= R).
Proof.
  induction nfts as [| nft rest IH]; intros st st' H.
  - injection H as <-. exists [], []. cbn.
    rewrite !app_nil_r, Z.add_0_r.
    repeat split; auto.
    + intros [| i] ? ? ? ?; discriminate.
    + intros ? ? ? ?; discriminate.
  - cbn [forEach] in H.
    destruct (processNft st nft) as [st1 |] eqn:H1; [| discriminate].
    cbn [option_bind] in H.
    pose proof (processNft_credit_ok _ _ _ H1) as Hok1.
    apply processNft_inv in H1.
    destruct H1 as (v & R & Hv & HR & Ht & Ha & Hi & Hvs & Hcs & _).
    destruct (IH _ _ H) as (vs & cs & Em & El & Et & Ea & Ei & Evs & Ecs
                             & Hle & Hnn & _).
    exists (v :: vs), (Z.min (nftFeeBigNumber (nft_fee nft) v) R :: cs).
    cbn [map List.length sumZ fold_right].
    rewrite Et, Ea, Ei, Evs, Ecs, Ht, Ha, Hi, Hvs, Hcs, Hv, Em, El.
    rewrite <- !app_assoc. cbn [app].
    repeat split; auto.
    + unfold sumZ. lia.
    + intros [| i] nft' v' c' Hn Hv' Hc'; cbn in *.
      * injection Hn as <-. injection Hv' as <-. injection Hc' as <-. lia.
      * eapply Hle; eauto.
    + intros Hok. constructor; [| auto].
      pose proof (nftFeeBigNumber_nonneg _ _ Hv).
      pose proof (Hok _ HR). lia.
    + intros R' c' HR' Hc'. cbn in Hc'. injection Hc' as <-.
      rewrite HR in HR'. injection HR' as <-. lia.
Qed.

Lemma processNfts_inv (nfts : list SelectedNft) (credit : Number)
  (r : AllocationResult) :
  processNfts nfts credit = Some r ->
  map feeWei nfts = map Some (values r) /\
  List.length (creditUsed r) = List.length nfts /\
  totalFee r = sumZ (values r) /\
  nftAddresses r = map nft_address nfts /\
  tokenIds r = map nft_tokenId nfts /\
  (forall i nft v c,
      nth_error nfts i = Some nft -> nth_error (values r) i = Some v ->
      nth_error (creditUsed r) i = Some c ->
      c <= nftFeeBigNumber (nft_fee nft) v) /\
  (credit_ok credit -> Forall (fun c => 0 <= c) (creditUsed r)) /\
  (forall R c, creditWei credit = Some R ->
               nth_error (creditUsed r) 0 = Some c -> c <= R).
Proof.
  unfold processNfts.
  destruct (forEach nfts (initAllocState credit)) as [st |] eqn:H;
    [| discriminate].
  cbn [option_bind].
  destruct (hexStripZeros_toHexString (st_totalFee st)) as [t |] eqn:Ht;
    [| discriminate].
  apply hexStripZeros_toHexString_inv in Ht. destruct Ht as [-> _].
  cbn [option_bind]. intros [= <-]. cbn.
  apply forEach_inv in H.
  destruct H as (vs & cs & Em & El & Et & Ea & Ei & Evs & Ecs & Hle & Hnn & H0).
  cbn in *. subst. repeat split; auto.
Qed.

(** The value at an index is the fee of the asset at that index. *)
Lemma values_nth (nfts : list SelectedNft) (vs : list Z) :
  map feeWei nfts = map Some vs ->
  forall i nft, nth_error nfts i = Some nft -> nth_error vs i = feeWei nft.
Proof.
  intros E i nft Hn.
  assert (H : nth_error (map feeWei nfts) i = Some (feeWei nft))
    by (rewrite nth_error_map, Hn; reflexivity).
  rewrite E, nth_error_map in H.
  destruct (nth_error vs i); cbn in H; congruence.
Qed.

Lemma map_Some_inj (l l' : list Z) : map Some l = map Some l' -> l = l'.
Proof.
  revert l'. induction l as [| a l IH]; intros [| b l'] H;
    try discriminate; [reflexivity |].
  cbn in H. injection H as -> H. f_equal. auto.
Qed.

(** ** Claims about the allocation *)

(** C1, as stated, fails: with fees of 0.3 and 5 ether and a credit of
    3 ether, the value attached to the first asset is its whole fee and
    the credit it consumes is its whole fee too, so the fee is not their
    sum; and the credit consumed in total is 167 wei more than the
    balance. *)
Lemma processNfts_fee_is_not_value_plus_credit :
  Forall (fun nft => Number_nonneg (nft_fee nft) = true)
         [asset "1" (lit 3 10); asset "2" (lit 5 1)] /\
  Number_nonneg (lit 3 1) = true /\
  processNfts [asset "1" (lit 3 10); asset "2" (lit 5 1)] (lit 3 1)
  = Some {| totalFee := 5299999999999999989;
            nftAddresses := ["0xA11CE"; "0xA11CE"];
            tokenIds := ["1"; "2"];
            values := [299999999999999989; 5000000000000000000];
            creditUsed := [299999999999999989; 2700000000000000178] |} /\
  creditWei (lit 3 1) = Some 3000000000000000000 /\
  sumZ [299999999999999989; 2700000000000000178]
  = 3000000000000000000 + 167 /\
  ~ fee_splits_into_value_and_credit
      [asset "1" (lit 3 10); asset "2" (lit 5 1)] (lit 3 1).
Proof.
  split; [repeat constructor |].
  split; [reflexivity |].
  split; [vm_compute; reflexivity |].
  split; [vm_compute; reflexivity |].
  split; [vm_compute; reflexivity |].
  intros H.
  destruct (H {| totalFee := 5299999999999999989;
                 nftAddresses := ["0xA11CE"; "0xA11CE"];
                 tokenIds := ["1"; "2"];
                 values := [299999999999999989; 5000000000000000000];
                 creditUsed := [299999999999999989; 2700000000000000178] |}
              3000000000000000000) as [_ Hs];
    [vm_compute; reflexivity | vm_compute; reflexivity |].
  vm_compute in Hs. apply Hs. reflexivity.
Qed.

(** C1, amended: for non-negative fees and credit, at every index the
    value attached is the whole fee, the credit consumed lies between
    zero and the fee, so the fee is the value plus the credit exactly
    when no credit is consumed; the credit consumed by the first asset
    is within the balance. *)
Theorem processNfts_value_is_fee_and_credit_within_fee
  (nfts : list SelectedNft) (credit : Number) (r : AllocationResult) :
  Forall (fun nft => Number_nonneg (nft_fee nft) = true) nfts ->
  Number_nonneg credit = true ->
  processNfts nfts credit = Some r ->
  forall i nft, nth_error nfts i = Some nft ->
  exists fee v c,
    feeWei nft = Some fee /\
    nth_error (values r) i = Some v /\
    nth_error (creditUsed r) i = Some c /\
    v = fee /\
    0 <= c <= fee /\
    (fee = v + c <-> c = 0) /\
    (i = 0%nat -> forall R, creditWei credit = Some R -> c <= R).
Proof.
  intros Hfees Hcredit Hr i nft Hn.
  destruct (processNfts_inv _ _ _ Hr)
    as (Em & El & _ & _ & _ & Hle & Hnn & H0).
  pose proof (values_nth _ _ Em i nft Hn) as Hv.
  destruct (nth_error (values r) i) as [v |] eqn:Ev.
  2:{ exfalso.
      assert (Hsome : nth_error (map feeWei nfts) i = Some (feeWei nft))
        by (rewrite nth_error_map, Hn; reflexivity).
      rewrite Em, nth_error_map, Ev in Hsome. discriminate. }
  destruct (nth_error (creditUsed r) i) as [c |] eqn:Ec.
  2:{ exfalso. apply nth_error_None in Ec.
      assert (i < List.length nfts)%nat
        by (apply nth_error_Some; congruence).
      lia. }
  exists v, v, c.
  assert (Hc0 : 0 <= c).
  { assert (Hok : credit_ok credit)
      by (intros w Hw; eapply creditWei_nonneg; eauto).
    specialize (Hnn Hok). rewrite Forall_forall in Hnn.
    apply Hnn. eapply nth_error_In; eauto. }
  assert (Hcf : c <= v).
  { specialize (Hle i nft v c Hn Ev Ec).
    rewrite Forall_forall in Hfees.
    pose proof (nftFeeBigNumber_le_fee nft v
                  (Hfees nft (nth_error_In _ _ Hn)) (eq_sym Hv)).
    lia. }
  repeat split; auto; try lia.
  intros -> R HR. eapply H0; eauto.
Qed.

Lemma processNfts_value_is_fee_and_credit_within_fee_witness :
  exists fee v c,
    feeWei (asset "1" (lit 3 10)) = Some fee /\
    nth_error [299999999999999989; 5000000000000000000] 0 = Some v /\
    nth_error [299999999999999989; 2700000000000000178] 0 = Some c /\
    v = fee /\
    0 <= c <= fee /\
    (fee = v + c <-> c = 0) /\
    c <= 3000000000000000000.
Proof.
  destruct (processNfts_value_is_fee_and_credit_within_fee
              [asset "1" (lit 3 10); asset "2" (lit 5 1)] (lit 3 1)
              {| totalFee := 5299999999999999989;
                 nftAddresses := ["0xA11CE"; "0xA11CE"];
                 tokenIds := ["1"; "2"];
                 values := [299999999999999989; 5000000000000000000];
                 creditUsed := [299999999999999989; 2700000000000000178] |}
              ltac:(repeat constructor) eq_refl
              ltac:(vm_compute; reflexivity)
              0%nat (asset "1" (lit 3 10)) eq_refl)
    as (fee & v & c & H1 & H2 & H3 & H4 & H5 & H6 & H7).
  exists fee, v, c. repeat split; try tauto.
  apply (H7 eq_refl). vm_compute. reflexivity.
Defined.

(** C5: the value reported for each asset is its whole fee, whatever
    credit it consumed, and the total fee is the sum of the fees; neither
    depends on the credit balance. *)
Theorem processNfts_reports_full_fees
  (nfts : list SelectedNft) (credit : Number) (r : AllocationResult) :
  processNfts nfts credit = Some r ->
  List.length (values r) = List.length nfts /\
  (forall i nft, nth_error nfts i = Some nft ->
                 nth_error (values r) i = feeWei nft) /\
  totalFee r = sumZ (values r) /\
  (forall credit' r', processNfts nfts credit' = Some r' ->
                      values r' = values r /\ totalFee r' = totalFee r).
Proof.
  intros Hr.
  destruct (processNfts_inv _ _ _ Hr) as (Em & _ & Et & _).
  split; [| split; [| split]].
  - apply (f_equal (@List.length _)) in Em.
    rewrite !length_map in Em. auto.
  - apply values_nth; assumption.
  - exact Et.
  - intros credit' r' Hr'.
    destruct (processNfts_inv _ _ _ Hr') as (Em' & _ & Et' & _).
    assert (values r' = values r)
      by (apply map_Some_inj; congruence).
    split; congruence.
Qed.

Lemma processNfts_reports_full_fees_witness :
  List.length [299999999999999989; 5000000000000000000] = 2%nat /\
  nth_error [299999999999999989; 5000000000000000000] 1
  = feeWei (asset "2" (lit 5 1)) /\
  5299999999999999989 = sumZ [299999999999999989; 5000000000000000000] /\
  values {| totalFee := 5299999999999999989;
            nftAddresses := ["0xA11CE"; "0xA11CE"];
            tokenIds := ["1"; "2"];
            values := [299999999999999989; 5000000000000000000];
            creditUsed := [0; 0] |}
  = [299999999999999989; 5000000000000000000].
Proof.
  destruct (processNfts_reports_full_fees
              [asset "1" (lit 3 10); asset "2" (lit 5 1)] (lit 3 1)
              {| totalFee := 5299999999999999989;
                 nftAddresses := ["0xA11CE"; "0xA11CE"];
                 tokenIds := ["1"; "2"];
                 values := [299999999999999989; 5000000000000000000];
                 creditUsed := [299999999999999989; 2700000000000000178] |}
              ltac:(vm_compute; reflexivity))
    as (H1 & H2 & H3 & H4).
  split; [exact H1 |].
  split; [apply (H2 1%nat); reflexivity |].
  split; [exact H3 |].
  apply (H4 (lit 0 1)). vm_compute. reflexivity.
Defined.

(** C9: an asset whose fee is below [1e-18] consumes no credit, whatever
    the wei its fee rounds to, and still has its entry at its index in
    the addresses, token ids, values and credits. The credit balance is
    non-negative, as the allocation requires. *)
Theorem processNfts_sub_unit_fee_uses_no_credit
  (nfts : list SelectedNft) (credit : Number) (r : AllocationResult)
  (i : nat) (nft : SelectedNft) :
  Number_nonneg credit = true ->
  processNfts nfts credit = Some r ->
  nth_error nfts i = Some nft ->
  Number_ltb (nft_fee nft) lit_1e_18 = true ->
  nth_error (creditUsed r) i = Some 0 /\
  nth_error (nftAddresses r) i = Some (nft_address nft) /\
  nth_error (tokenIds r) i = Some (nft_tokenId nft) /\
  (exists v, feeWei nft = Some v /\ nth_error (values r) i = Some v).
Proof.
  intros Hcredit Hr Hn Hlt.
  destruct (processNfts_inv _ _ _ Hr)
    as (Em & El & _ & Ea & Ei & Hle & Hnn & _).
  pose proof (values_nth _ _ Em i nft Hn) as Hv.
  assert (Hsome : nth_error (map feeWei nfts) i = Some (feeWei nft))
    by (rewrite nth_error_map, Hn; reflexivity).
  rewrite Em, nth_error_map in Hsome.
  destruct (nth_error (values r) i) as [v |] eqn:Ev; [| discriminate].
  destruct (nth_error (creditUsed r) i) as [c |] eqn:Ec.
  2:{ exfalso. apply nth_error_None in Ec.
      assert (i < List.length nfts)%nat
        by (apply nth_error_Some; congruence).
      lia. }
  assert (Hc0 : 0 <= c).
  { assert (Hok : credit_ok credit)
      by (intros w Hw; eapply creditWei_nonneg; eauto).
    specialize (Hnn Hok). rewrite Forall_forall in Hnn.
    apply Hnn. eapply nth_error_In; eauto. }
  specialize (Hle i nft v c Hn Ev Ec).
  unfold nftFeeBigNumber in Hle. rewrite Hlt in Hle.
  assert (c = 0) by lia. subst c.
  split; [reflexivity |].
  rewrite Ea, Ei, !nth_error_map, Hn. cbn.
  repeat split. exists v. auto.
Qed.

Lemma processNfts_sub_unit_fee_uses_no_credit_witness :
  Number_ltb (lit 6 (10 ^ 19)) lit_1e_18 = true /\
  feeWei (asset "1" (lit 6 (10 ^ 19))) = Some 1 /\
  nth_error [0; 3000000000000000000] 0 = Some 0 /\
  nth_error ["0xA11CE"; "0xA11CE"] 0 = Some "0xA11CE" /\
  nth_error ["1"; "2"] 0 = Some "1" /\
  (exists v, feeWei (asset "1" (lit 6 (10 ^ 19))) = Some v /\
             nth_error [1; 5000000000000000000] 0 = Some v).
Proof.
  split; [vm_compute; reflexivity |].
  split; [vm_compute; reflexivity |].
  apply (processNfts_sub_unit_fee_uses_no_credit
           [asset "1" (lit 6 (10 ^ 19)); asset "2" (lit 5 1)] (lit 3 1)
           {| totalFee := 5000000000000000001;
              nftAddresses := ["0xA11CE"; "0xA11CE"];
              tokenIds := ["1"; "2"];
              values := [1; 5000000000000000000];
              creditUsed := [0; 3000000000000000000] |}
           0%nat (asset "1" (lit 6 (10 ^ 19)))).
  - reflexivity.
  - vm_compute. reflexivity.
  - reflexivity.
  - vm_compute. reflexivity.
Defined.

(** C3: the balance carried from one asset to the next goes through a
    number. With fees of 0.3 and 5 ether and a credit of 3 ether, the
    2700000000000000011 wei left after the first asset are written back
    as the nearest double and read again as 2700000000000000178 wei,
    which the second asset then consumes. *)
Theorem processNfts_carries_credit_through_a_double :
  creditWei (lit 3 1) = Some 3000000000000000000 /\
  feeWei (asset "1" (lit 3 10)) = Some 299999999999999989 /\
  3000000000000000000 - 299999999999999989 = 2700000000000000011 /\
  credit_roundtrip 2700000000000000011 = Some 2700000000000000178 /\
  processNfts [asset "1" (lit 3 10); asset "2" (lit 5 1)] (lit 3 1)
  = Some {| totalFee := 5299999999999999989;
            nftAddresses := ["0xA11CE"; "0xA11CE"];
            tokenIds := ["1"; "2"];
            values := [299999999999999989; 5000000000000000000];
            creditUsed := [299999999999999989; 2700000000000000178] |}.
Proof. repeat split; vm_compute; reflexivity. Qed.

(** C6: on the example of the specification the credit is assigned as
    stated, [3; 3; 0] with a total fee of 10; with fees of 0.3 and 5
    ether and a credit of 3 ether the second asset does not receive the
    credit that remains after the first, as the allocation on integers
    gives it, but 167 wei more. *)
Theorem processNfts_differs_from_greedy_allocation :
  processNfts [asset "1" (lit 3 (10 ^ 18)); asset "2" (lit 5 (10 ^ 18));
               asset "3" (lit 2 (10 ^ 18))] (lit 6 (10 ^ 18))
  = Some {| totalFee := 10;
            nftAddresses := ["0xA11CE"; "0xA11CE"; "0xA11CE"];
            tokenIds := ["1"; "2"; "3"];
            values := [3; 5; 2];
            creditUsed := [3; 3; 0] |} /\
  greedy_creditUsed [3; 5; 2] 6 = [3; 3; 0] /\
  option_map creditUsed
    (processNfts [asset "1" (lit 3 10); asset "2" (lit 5 1)] (lit 3 1))
  = Some [299999999999999989; 2700000000000000178] /\
  greedy_creditUsed [299999999999999989; 5000000000000000000]
                    3000000000000000000
  = [299999999999999989; 2700000000000000011].
Proof. repeat split; vm_compute; reflexivity. Qed.

Lemma checkoutNFTs_tx_single (nft : SelectedNft) (credit : Number)
  (tx : TxRequest) :
  checkoutNFTs_tx [nft] credit = Some tx ->
  exists v, feeWei nft = Some v /\
            tx = Withdraw v (nft_address nft) (nft_tokenId nft) credit.
Proof.
  unfold checkoutNFTs_tx, feeWei.
  destruct (parseEther (toFixed18 (nft_fee nft))) as [v |]; [| discriminate].
  cbn [option_bind].
  destruct (hexStripZeros_toHexString v) as [t |] eqn:Ht; [| discriminate].
  apply hexStripZeros_toHexString_inv in Ht. destruct Ht as [-> _].
  cbn [option_bind]. intros [= <-]. exists v. auto.
Qed.

(** C8: the one-asset branch of [checkoutNFTs] attaches the same value
    as [processNfts] but passes the credit balance itself as the credit,
    neither converted to wei nor capped by the fee. With a fee of 1 wei
    and a credit of 3 it passes 3, where [processNfts] on the same asset
    consumes 1 wei. *)
Theorem checkoutNFTs_single_asset_passes_credit_unchanged :
  checkoutNFTs_tx [asset "1" (lit 1 (10 ^ 18))] (lit 3 1)
  = Some (Withdraw 1 "0xA11CE" "1" (lit 3 1)) /\
  Number_to_integer (lit 3 1) = Some 3 /\
  processNfts [asset "1" (lit 1 (10 ^ 18))] (lit 3 1)
  = Some {| totalFee := 1; nftAddresses := ["0xA11CE"]; tokenIds := ["1"];
            values := [1]; creditUsed := [1] |}.
Proof. repeat split; vm_compute; reflexivity. Qed.

(** ** Reading logs *)

Lemma annotated_app (l1 l2 : Log) :
  annotated (l1 ++ l2) = annotated l1 ++ annotated l2.
Proof. unfold annotated. apply flat_map_app. Qed.

Lemma lockedTill_count_app (l1 l2 : Log) :
  lockedTill_count (l1 ++ l2) = (lockedTill_count l1 + lockedTill_count l2)%nat.
Proof. unfold lockedTill_count. rewrite filter_app, length_app. reflexivity. Qed.

Lemma fetch_count_app (l1 l2 : Log) :
  fetch_count (l1 ++ l2) = (fetch_count l1 + fetch_count l2)%nat.
Proof. unfold fetch_count. rewrite filter_app, length_app. reflexivity. Qed.

(** ** The annotation of one item *)

Section Enumerator.

Variable env : Env.

(** A successful annotation: the item has metadata whose attributes can
    be spread, the four reads returned what the ledger answers at that
    point, the lock expiry fits a number, and nothing else happened. *)
Lemma annotate_inv (nft : OwnedNft) (log log' : Log) (md : MetaData) (e : Z) :
  annotate env nft log = (Ok (md, e), log') ->
  exists metaData attributes price value tokenId,
    metadata nft = Some metaData /\
    own_attributes (raw_attributes metaData) = Some attributes /\
    callWithRetry_reply env log VAULT "getPrice" (key_args nft)
    = Returns price /\
    callWithRetry_reply env (log ++ firstn 1 (annotation_calls nft tokenId))
      VAULT "getValue" (key_args nft)
    = Returns value /\
    callWithRetry_reply env (log ++ firstn 2 (annotation_calls nft tokenId))
      RENTSTORAGE "getTokenId(address,uint256)" (key_args nft)
    = Returns tokenId /\
    callWithRetry_reply env (log ++ firstn 3 (annotation_calls nft tokenId))
      RENTSTORAGE "getLockedTill" [arg_of_result tokenId]
    = Returns (Some e) /\
    Z.abs e <= 2 ^ 53 - 1 /\
    md = repackaged (getNativeCurrency env) nft metaData attributes
                    price value /\
    log' = log ++ annotation_calls nft tokenId.
Proof.
  unfold annotate, repackageMetadata, bind, callWithRetry, ret, throw.
  destruct (metadata nft) as [metaData |]; [| discriminate].
  destruct (callWithRetry_reply env log VAULT "getPrice" _)
    as [? | price] eqn:Ep; [discriminate |].
  destruct (callWithRetry_reply env _ VAULT "getValue" _)
    as [? | value] eqn:Ev; [discriminate |].
  destruct (own_attributes (raw_attributes metaData)) as [attributes |] eqn:Ea;
    [| discriminate].
  change (md_address (repackaged _ nft _ _ _ _)) with (contract_address nft).
  change (md_tokenId (repackaged _ nft _ _ _ _))
    with (or_string (id_tokenId nft) (raw_tokenId nft)).
  fold (key_args nft).
  destruct (callWithRetry_reply env _ RENTSTORAGE
              "getTokenId(address,uint256)" _) as [? | tokenId] eqn:Et;
    [discriminate |].
  destruct (callWithRetry_reply env _ RENTSTORAGE "getLockedTill" _)
    as [? | lockedTill] eqn:El; [discriminate |].
  unfold toNumber, throw, ret.
  destruct lockedTill as [z |]; [| discriminate].
  destruct (Z.abs z <=? 2 ^ 53 - 1) eqn:Ez; [| discriminate].
  intros [= <- <- <-].
  apply Z.leb_le in Ez.
  rewrite <- !app_assoc in *. cbn [app] in *.
  exists metaData, attributes, price, value, tokenId.
  unfold annotation_calls. cbn [firstn app].
  repeat split; try assumption; reflexivity.
Qed.

(** A successful annotation makes four calls, one of them the lookup of
    the custody identifier of this item and one the read of its lock
    expiry, and returns the metadata of this item. *)
Lemma annotate_ok (nft : OwnedNft) (log log' : Log) (md : MetaData) (e : Z) :
  annotate env nft log = (Ok (md, e), log') ->
  exists new,
    log' = log ++ new /\
    annotated new = [key_of nft] /\
    lockedTill_count new = 1%nat /\
    List.length new = 4%nat /\
    md_key md = key_of nft.
Proof.
  intros H. apply annotate_inv in H.
  destruct H as (metaData & attributes & price & value & tokenId
                 & _ & _ & _ & _ & _ & _ & _ & -> & ->).
  eexists. split; [reflexivity |].
  unfold key_of, md_key, annotation_calls, key_args.
  cbn [md_address md_tokenId repackaged].
  destruct (or_string (id_tokenId nft) (raw_tokenId nft));
    destruct tokenId; repeat split; reflexivity.
Qed.

(** Whatever happens, an annotation only adds to the log. *)
Lemma annotate_extends (nft : OwnedNft) (log : Log) :
  exists new, snd (annotate env nft log) = log ++ new.
Proof.
  unfold annotate, repackageMetadata, bind, callWithRetry, ret, toNumber,
    throw.
  repeat match goal with
         | |- context [match ?r with Throws _ => _ | Returns _ => _ end] =>
             destruct r
         | |- context [match ?v with Some _ => _ | None => _ end] =>
             destruct v
         | |- context [if ?c then _ else _] => destruct c
         end;
    cbn [snd]; rewrite <- ?app_assoc;
    first [ eexists; reflexivity
          | exists []; rewrite app_nil_r; reflexivity ].
Qed.

Lemma classify_lists (st : PageState) (count : Z) (md : MetaData) (e : Z) :
  ps_deposits (classify st count md e)
  = ps_deposits st ++ deposits_of [(md, e)] /\
  ps_rentals (classify st count md e)
  = ps_rentals st ++ rentals_of [(md, e)] /\
  ps_count (classify st count md e) = count.
Proof.
  unfold classify, deposits_of, rentals_of. cbn.
  destruct (e =? 0); cbn; rewrite ?app_nil_r; auto.
Qed.

Lemma deposits_of_cons (a : MetaData * Z) (anns : list (MetaData * Z)) :
  deposits_of (a :: anns) = deposits_of [a] ++ deposits_of anns.
Proof.
  unfold deposits_of. cbn. destruct (snd a =? 0); reflexivity.
Qed.

Lemma rentals_of_cons (a : MetaData * Z) (anns : list (MetaData * Z)) :
  rentals_of (a :: anns) = rentals_of [a] ++ rentals_of anns.
Proof.
  unfold rentals_of. cbn. destruct (snd a =? 0); reflexivity.
Qed.

Lemma classify_all_ok (items : list OwnedNft) :
  forall st log st' log',
    classify_all env items st log = (Ok st', log') ->
    exists anns new,
      log' = log ++ new /\
      annotated new = map key_of items /\
      lockedTill_count new = List.length items /\
      List.length new = (4 * List.length items)%nat /\
      map (fun a => md_key (fst a)) anns = map key_of items /\
      ps_deposits st' = ps_deposits st ++ deposits_of anns /\
      ps_rentals st' = ps_rentals st ++ rentals_of anns /\
      annotation_trace env log items anns log'.
Proof.
  induction items as [| nft rest IH]; intros st log st' log' H.
  - cbn in H. injection H as <- <-. exists [], []. cbn.
    rewrite !app_nil_r. repeat split. constructor.
  - cbn [classify_all] in H. unfold bind in H.
    destruct (annotate env nft log) as [[[md e] | err] log1] eqn:Ha;
      [| discriminate].
    pose proof (annotate_inv _ _ _ _ _ Ha)
      as (metaData & attributes & price & value & tokenId
          & Em & Eat & Ep & Ev & Et & El & Hb & Emd & Elog).
    apply annotate_ok in Ha.
    destruct Ha as (new1 & -> & Ha1 & Hl1 & Hn1 & Hk).
    cbn [fst snd] in H.
    apply IH in H.
    destruct H as (anns & new & -> & Ha2 & Hl2 & Hn2 & Hm & Hd & Hr & Htr).
    destruct (classify_lists st (ps_count st + 1) md e) as (Ed & Er & _).
    exists ((md, e) :: anns), (new1 ++ new).
    rewrite annotated_app, lockedTill_count_app, length_app.
    rewrite Ha1, Ha2, Hl1, Hl2, Hn1, Hn2, Hd, Hr, Ed, Er.
    rewrite (deposits_of_cons (md, e) anns), (rentals_of_cons (md, e) anns).
    rewrite <- !app_assoc.
    cbn [map fst List.length]. rewrite Hk, Hm.
    repeat split; try lia.
    rewrite Emd. rewrite app_assoc.
    apply (trace_item env log _ nft rest metaData attributes price value
             tokenId e anns Em Eat Ep Ev Et El Hb).
    rewrite <- Elog. exact Htr.
Qed.

(** ** The page window *)

Lemma page_of_count_before (p c : Z) :
  c <= pageSize * (p - 1) -> page_of_count c < p.
Proof.
  unfold page_of_count, pageSize. intros H.
  apply Z.div_lt_upper_bound; lia.
Qed.

Lemma page_of_count_within (p j : Z) :
  1 <= j <= pageSize -> page_of_count (pageSize * (p - 1) + j) = p.
Proof.
  unfold page_of_count, pageSize. intros H.
  symmetry. apply Z.div_unique with (r := j - 1); lia.
Qed.

Lemma page_of_count_pos (c : Z) : 1 <= c -> 1 <= page_of_count c.
Proof.
  unfold page_of_count, pageSize. intros H.
  apply Z.div_le_lower_bound; lia.
Qed.

(** Items before the requested page are counted and nothing else. *)
Lemma getWalletNfts_for_skip (page : Z) (l1 : list OwnedNft) :
  forall l2 st log,
    ps_count st + Z.of_nat (List.length l1) <= pageSize * (page - 1) ->
    getWalletNfts_for env page (l1 ++ l2) st log
    = getWalletNfts_for env page l2
        (mkPageState (ps_count st + Z.of_nat (List.length l1))
                     (ps_deposits st) (ps_rentals st)) log.
Proof.
  induction l1 as [| nft l1 IH]; intros l2 st log H.
  - cbn [app List.length Z.of_nat]. rewrite Z.add_0_r.
    destruct st; reflexivity.
  - cbn [app getWalletNfts_for]. cbn [List.length] in H.
    assert (Hp : page_of_count (ps_count st + 1) <> page).
    { pose proof (page_of_count_before page (ps_count st + 1)). lia. }
    apply Z.eqb_neq in Hp. rewrite Hp.
    rewrite IH by (cbn [ps_count]; lia).
    cbn [ps_count ps_deposits ps_rentals List.length].
    do 2 f_equal. lia.
Qed.

(** For a page below 1 no item is on the page. *)
Lemma getWalletNfts_for_none (page : Z) (items : list OwnedNft) :
  forall st log,
    page < 1 -> 0 <= ps_count st ->
    exists c,
      getWalletNfts_for env page items st log
      = (Ok (mkPageState c (ps_deposits st) (ps_rentals st)), log).
Proof.
  induction items as [| nft rest IH]; intros st log Hp Hc.
  - exists (ps_count st). destruct st; reflexivity.
  - cbn [getWalletNfts_for].
    assert (Hn : page_of_count (ps_count st + 1) <> page).
    { pose proof (page_of_count_pos (ps_count st + 1)). lia. }
    apply Z.eqb_neq in Hn. rewrite Hn.
    apply (IH (mkPageState (ps_count st + 1) (ps_deposits st)
                           (ps_rentals st)));
      cbn [ps_count]; lia.
Qed.

Lemma classify_length (st : PageState) (count : Z) (md : MetaData) (e : Z) :
  (List.length (ps_deposits (classify st count md e))
   + List.length (ps_rentals (classify st count md e)))%nat
  = S (List.length (ps_deposits st) + List.length (ps_rentals st)).
Proof.
  unfold classify. destruct (e =? 0); cbn; rewrite length_app; cbn; lia.
Qed.

(** On the requested page every item is annotated and classified, until
    the page is full. *)
Lemma getWalletNfts_for_page (page : Z) (items : list OwnedNft) :
  forall st log k,
    ps_count st = pageSize * (page - 1) + Z.of_nat k ->
    k = (List.length (ps_deposits st) + List.length (ps_rentals st))%nat ->
    (k < 12)%nat ->
    getWalletNfts_for env page items st log
    = classify_all env (firstn (12 - k) items) st log.
Proof.
  induction items as [| nft rest IH]; intros st log k Hc Hk Hlt.
  - rewrite firstn_nil. reflexivity.
  - destruct (12 - k)%nat as [| m] eqn:Em; [lia |].
    cbn [firstn getWalletNfts_for classify_all].
    rewrite Hc.
    replace (pageSize * (page - 1) + Z.of_nat k + 1)
      with (pageSize * (page - 1) + Z.of_nat (S k)) by lia.
    rewrite page_of_count_within by (unfold pageSize; lia).
    rewrite Z.eqb_refl.
    unfold bind.
    destruct (annotate env nft log) as [[[md e] | err] log1];
      [| reflexivity].
    cbn [fst snd].
    set (st' := classify st (pageSize * (page - 1) + Z.of_nat (S k)) md e).
    pose proof (classify_length st (pageSize * (page - 1) + Z.of_nat (S k))
                  md e) as Hlen.
    fold st' in Hlen. rewrite <- Hk in Hlen.
    unfold page_full. rewrite Hlen.
    destruct (Z.of_nat (S k) =? pageSize) eqn:Hfull.
    + apply Z.eqb_eq in Hfull. unfold pageSize in Hfull.
      assert (m = 0%nat) by lia. subst m.
      rewrite firstn_O. reflexivity.
    + apply Z.eqb_neq in Hfull. unfold pageSize in Hfull.
      replace m with (12 - S k)%nat by lia.
      apply IH.
      * destruct (classify_lists st (pageSize * (page - 1) + Z.of_nat (S k))
                    md e) as (_ & _ & Ec).
        fold st' in Ec. rewrite Ec. reflexivity.
      * symmetry. exact Hlen.
      * lia.
Qed.

(** The loop of [getWalletNfts] annotates and classifies the items of
    the requested page, and only them. *)
Lemma getWalletNfts_for_is_page (page : Z) (items : list OwnedNft) (log : Log) :
  exists c,
    getWalletNfts_for env page items (mkPageState 0 [] []) log
    = classify_all env (page_slice page items) (mkPageState c [] []) log.
Proof.
  unfold page_slice. destruct (1 <=? page) eqn:Hp.
  - apply Z.leb_le in Hp.
    set (n := Z.to_nat (pageSize * (page - 1))).
    assert (Hn : Z.of_nat n = pageSize * (page - 1))
      by (unfold n, pageSize; lia).
    assert (E : getWalletNfts_for env page items (mkPageState 0 [] []) log
                = getWalletNfts_for env page (firstn n items ++ skipn n items)
                    (mkPageState 0 [] []) log)
      by (rewrite firstn_skipn; reflexivity).
    rewrite E. clear E.
    rewrite getWalletNfts_for_skip.
    2:{ cbn [ps_count]. rewrite length_firstn. lia. }
    cbn [ps_count ps_deposits ps_rentals].
    destruct (Nat.le_gt_cases n (List.length items)) as [Hle | Hgt].
    + exists (pageSize * (page - 1)).
      rewrite length_firstn, Nat.min_l by exact Hle.
      rewrite Hn, Z.add_0_l.
      change (Z.to_nat pageSize) with (12 - 0)%nat.
      apply getWalletNfts_for_page; cbn [ps_count ps_deposits ps_rentals];
        cbn [List.length Nat.add Z.of_nat]; lia.
    + rewrite skipn_all2 by lia. rewrite firstn_nil.
      eexists. reflexivity.
  - apply Z.leb_gt in Hp.
    destruct (getWalletNfts_for_none page items (mkPageState 0 [] []) log)
      as [c Hc]; cbn; try lia.
    exists c. exact Hc.
Qed.

(** ** Claims about [getWalletNfts] *)


(** C10: for a falsy owner [getWalletNfts] returns the array [[[], []]]
    without any call, and destructuring [{ rentals, deposits }] from it
    gives two undefined fields; for a truthy owner, what it returns is an
    object with both fields. *)
Theorem getWalletNfts_result_shape
  (proxyWallet : option Address) (page : Z) (log : Log) :
  if truthy proxyWallet
  then forall r log',
         getWalletNfts env proxyWallet page log = (Ok r, log') ->
         exists rentals deposits,
           r = RentalsDeposits rentals deposits /\
           destructure_rentals_deposits r = (Some rentals, Some deposits)
  else getWalletNfts env proxyWallet page log = (Ok (ArrayResult [[]; []]), log)
       /\ destructure_rentals_deposits (ArrayResult [[]; []]) = (None, None).
Proof.
  destruct (truthy proxyWallet) eqn:Ht.
  - destruct proxyWallet as [owner |]; [| discriminate].
    unfold getWalletNfts. rewrite Ht. unfold bind, ret.
    intros r log'.
    destruct (alchemy_getNftsForOwner env owner log) as [[data | err] log1];
      [| discriminate].
    destruct (getWalletNfts_for env page data (mkPageState 0 [] []) log1)
      as [[st | err] log2]; [| discriminate].
    intros [= <- <-]. eexists _, _. split; reflexivity.
  - unfold getWalletNfts.
    destruct proxyWallet as [owner |]; [rewrite Ht |]; split; reflexivity.
Qed.

(** ** [getTotalWalletNfts] *)

(** Five passes of fuel are enough: the loop of [getTotalWalletNfts]
    ends, with a count or with the error of the fifth failure. *)
Lemma whileTrue_ends (fuel : nat) :
  forall owner retryCount c log,
    0 <= retryCount ->
    5 - retryCount <= Z.of_nat fuel ->
    retryCount < 5 ->
    exists r, whileTrue env fuel owner retryCount c log = Some r.
Proof.
  induction fuel as [| fuel IH]; intros owner retryCount c log H0 Hf H5.
  - lia.
  - cbn [whileTrue].
    destruct (tryWalk env owner c log) as [[[u | err] c'] log'].
    + eexists; reflexivity.
    + destruct (retryCount + 1 >=? 5) eqn:Hge.
      * eexists; reflexivity.
      * rewrite Z.geb_leb in Hge. apply Z.leb_gt in Hge.
        apply IH; lia.
Qed.

Lemma getTotalWalletNfts_returns (walletAddress : option Address)
  (type : string) (log : Log) :
  exists r, getTotalWalletNfts env walletAddress type log = Some r.
Proof.
  unfold getTotalWalletNfts, getTotalWalletNfts_fuel.
  destruct walletAddress as [owner |]; [| eexists; reflexivity].
  destruct (truthy (Some owner)); [| eexists; reflexivity].
  destruct (whileTrue_ends 5 owner 0 (mkCounts 0 0) log) as [[[c | err] l] E];
    try (cbn; lia); rewrite E; eexists; reflexivity.
Qed.

(** A pass without failure returns the count of that pass. *)
Lemma getTotalWalletNfts_first_pass (owner : Address) (type : string)
  (log : Log) (n : Z) :
  truthy (Some owner) = true ->
  count_once env owner type log = Some n ->
  exists log',
    getTotalWalletNfts env (Some owner) type log = Some (Ok n, log').
Proof.
  intros Ht. unfold count_once, getTotalWalletNfts, getTotalWalletNfts_fuel.
  rewrite Ht. cbn [whileTrue].
  destruct (tryWalk env owner (mkCounts 0 0) log) as [[[u | err] c] log'];
    [| discriminate].
  intros [= <-]. eexists; reflexivity.
Qed.

(** ** [exponentialBackoff] *)




End Enumerator.

(** ** The claims on concrete ledgers *)

(** On the steady ledger the second page of 25 items is returned. *)
Lemma steady_page_2_returns :
  exists w log',
    getWalletNfts (steady_env 25) (Some "0xME") 2 [] = (Ok w, log').
Proof. vm_compute. eexists _, _. reflexivity. Qed.



Lemma getWalletNfts_result_shape_witness :
  (exists r log' rentals deposits,
      getWalletNfts (steady_env 25) (Some "0xME") 2 [] = (Ok r, log') /\
      r = RentalsDeposits rentals deposits /\
      destructure_rentals_deposits r = (Some rentals, Some deposits)) /\
  getWalletNfts (steady_env 25) None 2 [] = (Ok (ArrayResult [[]; []]), []) /\
  destructure_rentals_deposits (ArrayResult [[]; []]) = (None, None) /\
  getWalletNfts (steady_env 25) (Some "") 2 [] = (Ok (ArrayResult [[]; []]), []).
Proof.
  split; [| split; [| split]].
  - destruct steady_page_2_returns as (w & log' & E).
    destruct (getWalletNfts_result_shape (steady_env 25) (Some "0xME") 2 []
                w log' E) as (rentals & deposits & H).
    exists w, log', rentals, deposits. split; [exact E | exact H].
  - exact (proj1 (getWalletNfts_result_shape (steady_env 25) None 2 [])).
  - exact (proj2 (getWalletNfts_result_shape (steady_env 25) None 2 [])).
  - exact (proj1 (getWalletNfts_result_shape (steady_env 25) (Some "") 2 [])).
Defined.

(** C2: on an index of 10 unlocked items whose 10th annotation throws on
    the first two passes, the index is fetched three times and the third
    pass succeeds, but the count returned is 28: the 9 items counted in
    each failed pass stay counted. A pass over the same index counts
    10. *)
Theorem getTotalWalletNfts_keeps_counts_of_failed_passes :
  match getTotalWalletNfts (flaky_env 10 10 2) (Some "0xME") "owned" [] with
  | Some (r, log') =>
      r = Ok 28 /\
      index_fetches log' = 3%nat /\
      sleeps log' = [1000; 2000] /\
      count_once (flaky_env 10 10 2) "0xME" "owned" log' = Some 10
  | None => False
  end.
Proof. vm_compute. repeat split; reflexivity. Qed.





(** * Properties of the rest of the module *)

(** ** Networks *)

Lemma NoDup_4 {A : Type} (a b c d : A) :
  NoDup [a; b; c; d] ->
  a <> b /\ a <> c /\ a <> d /\ b <> c /\ b <> d /\ c <> d.
Proof.
  intros H.
  inversion H as [| ? ? Ha H1]; subst.
  inversion H1 as [| ? ? Hb H2]; subst.
  inversion H2 as [| ? ? Hc H3]; subst.
  cbn in Ha, Hb, Hc.
  repeat split; intros E; subst; tauto.
Qed.

Lemma inherited_In (k : string) :
  inherited k = true <-> In k Object_prototype_names.
Proof.
  unfold inherited. rewrite existsb_exists. split.
  - intros (x & Hx & E). apply String.eqb_eq in E. subst. exact Hx.
  - intros Hx. exists k. split; [exact Hx | apply String.eqb_refl].
Qed.

(** X1: With four different chain ids, a chain id is accepted exactly when
    it is one of the four and the name of its network is listed in
    [REACT_APP_CHAINS]; any other chain id is rejected whatever is
    listed. *)
Theorem isCorrectChainId_iff (C : ChainIds) (N : NetworkNames)
  (compatibleChains : list string) (chainId : string) :
  NoDup [CHAIN_MAINNET C; CHAIN_POLYGON C; CHAIN_GOERLI C; CHAIN_MUMBAI C] ->
  isCorrectChainId C N compatibleChains chainId = true <->
  (chainId = CHAIN_MAINNET C /\ In (NETWORK_MAINNET N) compatibleChains) \/
  (chainId = CHAIN_POLYGON C /\ In (NETWORK_POLYGON N) compatibleChains) \/
  (chainId = CHAIN_GOERLI C /\ In (NETWORK_GOERLI N) compatibleChains) \/
  (chainId = CHAIN_MUMBAI C /\ In (NETWORK_MUMBAI N) compatibleChains).
Proof.
  intros Hd. apply NoDup_4 in Hd.
  destruct Hd as (H1 & H2 & H3 & H4 & H5 & H6).
  assert (Hin : forall s, existsb (String.eqb s) compatibleChains = true
                          <-> In s compatibleChains).
  { intros s. rewrite existsb_exists. split.
    - intros (x & Hx & E). apply String.eqb_eq in E. subst. exact Hx.
    - intros Hx. exists s. split; [exact Hx | apply String.eqb_refl]. }
  unfold isCorrectChainId, chainIdToNetwork, obj_set, includes.
  cbn [obj_get].
  split_eqb; try congruence; rewrite ?Hin;
    (split; intros H; intuition congruence).
Qed.

Lemma isCorrectChainId_iff_witness :
  isCorrectChainId chain_ids network_names ["goerli"; "mumbai"] "0x5" = true /\
  isCorrectChainId chain_ids network_names ["goerli"; "mumbai"] "0x1" = false /\
  isCorrectChainId chain_ids network_names ["goerli"; "mumbai"] "0x2a" = false.
Proof.
  assert (Hd : NoDup [CHAIN_MAINNET chain_ids; CHAIN_POLYGON chain_ids;
                      CHAIN_GOERLI chain_ids; CHAIN_MUMBAI chain_ids]).
  { repeat constructor; cbn; intuition discriminate. }
  split; [| split].
  - apply (isCorrectChainId_iff chain_ids network_names _ "0x5" Hd).
    right. right. left. cbn. auto.
  - apply not_true_is_false. intros H.
    apply (isCorrectChainId_iff chain_ids network_names _ "0x1" Hd) in H.
    cbn in H. intuition discriminate.
  - apply not_true_is_false. intros H.
    apply (isCorrectChainId_iff chain_ids network_names _ "0x2a" Hd) in H.
    cbn in H. intuition discriminate.
Defined.

(** X2: The two tables agree: with different chain ids and different network
    names, the description of the network a chain id maps to carries that
    chain id, so [setChainId] on that network asks the wallet for the
    same chain: a switch for mainnet and goerli, an addition for polygon
    and mumbai. *)
Theorem getChainInfo_of_chainIdToNetwork (C : ChainIds) (N : NetworkNames)
  (polygonRpc mumbaiRpc : option string) (chainId network : string) :
  NoDup [CHAIN_MAINNET C; CHAIN_POLYGON C; CHAIN_GOERLI C; CHAIN_MUMBAI C] ->
  NoDup [NETWORK_MAINNET N; NETWORK_POLYGON N; NETWORK_GOERLI N;
         NETWORK_MUMBAI N] ->
  chainIdToNetwork C N chainId = Some network ->
  exists i,
    getChainInfo C N polygonRpc mumbaiRpc network = Description i /\
    cp_chainId (info i) = Some chainId /\
    match setChainId_request C N polygonRpc mumbaiRpc network with
    | Ok (wallet_switchEthereumChain id) =>
        id = Some chainId /\
        (chainId = CHAIN_MAINNET C \/ chainId = CHAIN_GOERLI C)
    | Ok (wallet_addEthereumChain params) =>
        cp_chainId params = Some chainId /\
        (chainId = CHAIN_POLYGON C \/ chainId = CHAIN_MUMBAI C)
    | Thrown _ => False
    end.
Proof.
  intros Hc Hn. apply NoDup_4 in Hc. apply NoDup_4 in Hn.
  destruct Hc as (C1 & C2 & C3 & C4 & C5 & C6).
  destruct Hn as (N1 & N2 & N3 & N4 & N5 & N6).
  unfold setChainId_request, getChainInfo, chainIdToNetwork, obj_set.
  cbn [obj_get].
  intros H.
  repeat match type of H with
         | context [String.eqb ?a ?b] => destruct (String.eqb_spec a b)
         end;
    try discriminate; injection H as <-; subst;
    split_eqb; try congruence; eexists; cbn; auto.
Qed.

Lemma getChainInfo_of_chainIdToNetwork_witness :
  exists i,
    getChainInfo chain_ids network_names None None "polygon" = Description i /\
    cp_chainId (info i) = Some "0x89" /\
    match setChainId_request chain_ids network_names None None "polygon" with
    | Ok (wallet_switchEthereumChain id) =>
        id = Some "0x89" /\
        ("0x89" = CHAIN_MAINNET chain_ids \/ "0x89" = CHAIN_GOERLI chain_ids)
    | Ok (wallet_addEthereumChain params) =>
        cp_chainId params = Some "0x89" /\
        ("0x89" = CHAIN_POLYGON chain_ids \/ "0x89" = CHAIN_MUMBAI chain_ids)
    | Thrown _ => False
    end.
Proof.
  apply (getChainInfo_of_chainIdToNetwork chain_ids network_names None None
           "0x89" "polygon").
  - repeat constructor; cbn; intuition discriminate.
  - repeat constructor; cbn; intuition discriminate.
  - reflexivity.
Defined.

(** X3: For a network that is none of the four there are two cases. If
    its name is one every object inherits from [Object.prototype],
    [getChainInfo] returns that inherited member and [setChainId] throws
    a TypeError before any request to the wallet. For any other name
    [getChainInfo] returns the empty description and [setChainId] asks
    the wallet to switch to a chain id that is [null]. In neither case
    does it ask to add a chain. *)
Theorem setChainId_request_unknown_network (C : ChainIds) (N : NetworkNames)
  (polygonRpc mumbaiRpc : option string) (network : string) :
  ~ In network [NETWORK_MAINNET N; NETWORK_POLYGON N; NETWORK_GOERLI N;
                NETWORK_MUMBAI N] ->
  (In network Object_prototype_names ->
   getChainInfo C N polygonRpc mumbaiRpc network = InheritedMember network /\
   setChainId_request C N polygonRpc mumbaiRpc network = Thrown "TypeError") /\
  (~ In network Object_prototype_names ->
   getChainInfo C N polygonRpc mumbaiRpc network
   = Description empty_ChainInfo /\
   setChainId_request C N polygonRpc mumbaiRpc network
   = Ok (wallet_switchEthereumChain None)).
Proof.
  intros Hn. cbn [In] in Hn.
  assert (E : getChainInfo C N polygonRpc mumbaiRpc network
              = if inherited network then InheritedMember network
                else Description empty_ChainInfo).
  { unfold getChainInfo, obj_set. cbn [obj_get].
    repeat match goal with
           | |- context [String.eqb ?a ?b] =>
               destruct (String.eqb_spec a b); [subst; tauto |]
           end.
    reflexivity. }
  unfold setChainId_request. rewrite E.
  split; intros Hp.
  - rewrite (proj2 (inherited_In network) Hp). split; reflexivity.
  - destruct (inherited network) eqn:Ei.
    + apply inherited_In in Ei. contradiction.
    + split; reflexivity.
Qed.

Lemma setChainId_request_unknown_network_witness :
  (getChainInfo chain_ids network_names None None "constructor"
   = InheritedMember "constructor" /\
   setChainId_request chain_ids network_names None None "constructor"
   = Thrown "TypeError") /\
  (getChainInfo chain_ids network_names None None "sepolia"
   = Description empty_ChainInfo /\
   setChainId_request chain_ids network_names None None "sepolia"
   = Ok (wallet_switchEthereumChain None)).
Proof.
  split.
  - apply (setChainId_request_unknown_network chain_ids network_names
             None None "constructor").
    + cbn. intuition discriminate.
    + cbn. auto.
  - apply (setChainId_request_unknown_network chain_ids network_names
             None None "sepolia").
    + cbn. intuition discriminate.
    + cbn. intuition discriminate.
Defined.

(** ** More on the allocation *)

Lemma creditWei_zero_roundtrip : credit_roundtrip 0 = Some 0.
Proof. reflexivity. Qed.

(** With no credit left, no asset receives any. *)
Lemma forEach_zero_credit (nfts : list SelectedNft) :
  forall st st',
    creditWei (st_totalCreditUsed st) = Some 0 ->
    forEach nfts st = Some st' ->
    st_creditUsed st' = st_creditUsed st ++ repeat 0 (List.length nfts).
Proof.
  induction nfts as [| nft rest IH]; intros st st' H0 H.
  - injection H as <-. cbn. rewrite app_nil_r. reflexivity.
  - cbn [forEach] in H.
    destruct (processNft st nft) as [st1 |] eqn:H1; [| discriminate].
    cbn [option_bind] in H.
    apply processNft_inv in H1.
    destruct H1 as (v & R & Hv & HR & _ & _ & _ & _ & Hcs & Hc).
    rewrite H0 in HR. injection HR as <-.
    pose proof (nftFeeBigNumber_nonneg _ _ Hv) as Hf.
    rewrite Z.min_r in Hcs, Hc by lia.
    rewrite (IH st1 st'); auto.
    + rewrite Hcs, <- app_assoc. reflexivity.
    + rewrite Hc. reflexivity.
Qed.

(** X4: A credit balance that reads as zero wei (zero, or less than half a
    wei) gives every asset a credit of zero, whatever the fees. *)
Theorem processNfts_zero_credit
  (nfts : list SelectedNft) (credit : Number) (r : AllocationResult) :
  creditWei credit = Some 0 ->
  processNfts nfts credit = Some r ->
  creditUsed r = repeat 0 (List.length nfts).
Proof.
  intros H0. unfold processNfts.
  destruct (forEach nfts (initAllocState credit)) as [st |] eqn:H;
    [| discriminate].
  cbn [option_bind].
  destruct (hexStripZeros_toHexString (st_totalFee st)); [| discriminate].
  cbn [option_bind]. intros [= <-]. cbn [creditUsed].
  apply forEach_zero_credit in H; [| exact H0].
  exact H.
Qed.

Lemma processNfts_zero_credit_witness :
  creditWei (lit 4 (10 ^ 19)) = Some 0 /\
  creditUsed {| totalFee := 5299999999999999989;
                nftAddresses := ["0xA11CE"; "0xA11CE"];
                tokenIds := ["1"; "2"];
                values := [299999999999999989; 5000000000000000000];
                creditUsed := [0; 0] |}
  = repeat 0 2.
Proof.
  split; [vm_compute; reflexivity |].
  apply (processNfts_zero_credit
           [asset "1" (lit 3 10); asset "2" (lit 5 1)] (lit 4 (10 ^ 19))).
  - vm_compute. reflexivity.
  - vm_compute. reflexivity.
Defined.

(** Once an asset has received less credit than its credit-eligible fee,
    the balance is spent: the assets after it receive zero. *)
Lemma forEach_short_then_zero (nfts : list SelectedNft) :
  forall st st' cs,
    forEach nfts st = Some st' ->
    st_creditUsed st' = st_creditUsed st ++ cs ->
    forall i nft v c,
      nth_error nfts i = Some nft -> feeWei nft = Some v ->
      nth_error cs i = Some c ->
      c < nftFeeBigNumber (nft_fee nft) v ->
      forall j c', (i < j)%nat -> nth_error cs j = Some c' -> c' = 0.
Proof.
  induction nfts as [| nft0 rest IH];
    intros st st' cs H Hcs i nft v c Hn Hv Hc Hlt j c' Hij Hj.
  - destruct i; discriminate.
  - cbn [forEach] in H.
    destruct (processNft st nft0) as [st1 |] eqn:H1; [| discriminate].
    cbn [option_bind] in H.
    apply processNft_inv in H1.
    destruct H1 as (v0 & R & Hv0 & HR & _ & _ & _ & _ & Hcs1 & Hc1).
    destruct (forEach_inv _ _ _ H) as (vs' & cs' & _ & _ & _ & _ & _ & _
                                        & Ecs & _).
    rewrite Hcs1, <- app_assoc in Ecs. rewrite Hcs in Ecs.
    apply app_inv_head in Ecs. cbn [app] in Ecs. subst cs.
    destruct j as [| j]; [lia |]. cbn [nth_error] in Hj.
    destruct i as [| i].
    + cbn in Hn, Hc. injection Hn as <-. injection Hc as <-.
      rewrite Hv0 in Hv. injection Hv as <-.
      assert (Hmin : Z.min (nftFeeBigNumber (nft_fee nft0) v0) R = R) by lia.
      rewrite Hmin, Z.sub_diag in Hc1.
      assert (Hz : st_creditUsed st'
                   = st_creditUsed st1 ++ repeat 0 (List.length rest)).
      { apply forEach_zero_credit; [| exact H].
        rewrite Hc1. reflexivity. }
      assert (Ecs' : st_creditUsed st' = st_creditUsed st1 ++ cs').
      { rewrite Hcs, Hcs1, <- app_assoc. reflexivity. }
      rewrite Hz in Ecs'. apply app_inv_head in Ecs'. subst cs'.
      apply nth_error_In, repeat_spec in Hj. exact Hj.
    + cbn [nth_error] in Hn, Hc.
      assert (Ecs' : st_creditUsed st' = st_creditUsed st1 ++ cs').
      { rewrite Hcs, Hcs1, <- app_assoc. reflexivity. }
      eapply (IH st1 st' cs' H Ecs' i nft v c Hn Hv Hc Hlt j c'); [lia | exact Hj].
Qed.

(** X5: Once an asset receives less credit than its credit-eligible fee,
    every asset after it receives zero credit. *)
Theorem processNfts_short_then_zero
  (nfts : list SelectedNft) (credit : Number) (r : AllocationResult)
  (i : nat) (nft : SelectedNft) (v c : Z) :
  processNfts nfts credit = Some r ->
  nth_error nfts i = Some nft ->
  feeWei nft = Some v ->
  nth_error (creditUsed r) i = Some c ->
  c < nftFeeBigNumber (nft_fee nft) v ->
  forall j, (i < j < List.length nfts)%nat ->
            nth_error (creditUsed r) j = Some 0.
Proof.
  intros Hr Hn Hv Hc Hlt j Hj.
  destruct (processNfts_inv _ _ _ Hr) as (_ & El & _).
  unfold processNfts in Hr.
  destruct (forEach nfts (initAllocState credit)) as [st |] eqn:H;
    [| discriminate].
  cbn [option_bind] in Hr.
  destruct (hexStripZeros_toHexString (st_totalFee st)); [| discriminate].
  cbn [option_bind] in Hr. injection Hr as <-. cbn [creditUsed] in *.
  destruct (nth_error (st_creditUsed st) j) as [c' |] eqn:Ej.
  - f_equal.
    apply (forEach_short_then_zero nfts (initAllocState credit) st
             (st_creditUsed st) H eq_refl i nft v c Hn Hv Hc Hlt j c');
      [lia | exact Ej].
  - apply nth_error_None in Ej. lia.
Qed.

Lemma processNfts_short_then_zero_witness :
  nth_error [3; 3; 0] 2 = Some 0.
Proof.
  apply (processNfts_short_then_zero
           [asset "1" (lit 3 (10 ^ 18)); asset "2" (lit 5 (10 ^ 18));
            asset "3" (lit 2 (10 ^ 18))] (lit 6 (10 ^ 18))
           {| totalFee := 10;
              nftAddresses := ["0xA11CE"; "0xA11CE"; "0xA11CE"];
              tokenIds := ["1"; "2"; "3"];
              values := [3; 5; 2];
              creditUsed := [3; 3; 0] |}
           1%nat (asset "2" (lit 5 (10 ^ 18))) 5 3).
  - vm_compute. reflexivity.
  - reflexivity.
  - vm_compute. reflexivity.
  - reflexivity.
  - vm_compute. reflexivity.
  - cbn. lia.
Defined.

(** X6: The arrays [processNfts] returns are aligned with its input: each
    has one entry per asset, and the addresses and token ids are those
    of the assets, in order. *)
Theorem processNfts_arrays_aligned
  (nfts : list SelectedNft) (credit : Number) (r : AllocationResult) :
  processNfts nfts credit = Some r ->
  nftAddresses r = map nft_address nfts /\
  tokenIds r = map nft_tokenId nfts /\
  List.length (values r) = List.length nfts /\
  List.length (creditUsed r) = List.length nfts.
Proof.
  intros Hr.
  destruct (processNfts_inv _ _ _ Hr) as (Em & El & _ & Ea & Ei & _).
  repeat split; auto.
  apply (f_equal (@List.length _)) in Em.
  rewrite !length_map in Em. auto.
Qed.

Lemma processNfts_arrays_aligned_witness :
  ["0xA11CE"; "0xA11CE"]
  = map nft_address [asset "1" (lit 3 10); asset "2" (lit 5 1)] /\
  ["1"; "2"] = map nft_tokenId [asset "1" (lit 3 10); asset "2" (lit 5 1)] /\
  List.length [299999999999999989; 5000000000000000000] = 2%nat /\
  List.length [299999999999999989; 2700000000000000178] = 2%nat.
Proof.
  apply (processNfts_arrays_aligned
           [asset "1" (lit 3 10); asset "2" (lit 5 1)] (lit 3 1)
           {| totalFee := 5299999999999999989;
              nftAddresses := ["0xA11CE"; "0xA11CE"];
              tokenIds := ["1"; "2"];
              values := [299999999999999989; 5000000000000000000];
              creditUsed := [299999999999999989; 2700000000000000178] |}).
  vm_compute. reflexivity.
Defined.

(** A fee prints in fixed notation, and so converts to wei, exactly when
    it is a finite number below [10^21] in absolute value. *)
Lemma feeWei_None_iff (nft : SelectedNft) :
  feeWei nft = None <->
  match nft_fee nft with
  | S754_zero _ => False
  | S754_finite _ m e => at_least_1e21 m e = true
  | S754_infinity _ | S754_nan => True
  end.
Proof.
  unfold feeWei, toFixed18.
  destruct (nft_fee nft) as [s | s | | s m e]; cbn;
    try (split; [discriminate || tauto | tauto || discriminate]);
    try (split; auto; discriminate).
  destruct (at_least_1e21 m e); cbn; split; auto; discriminate.
Qed.

(** X7: [processNfts] throws, returning nothing, as soon as one fee anywhere
    in the list does not convert to wei (NaN, infinite, or [10^21] ether
    and more), or when there is an asset and the credit balance does not
    convert; with no asset it returns the empty result without reading
    the credit. *)
Theorem processNfts_throws_on_unconvertible_amount
  (nfts : list SelectedNft) (credit : Number) :
  (exists nft, In nft nfts /\ feeWei nft = None)
  \/ (nfts <> [] /\ creditWei credit = None) ->
  processNfts nfts credit = None /\
  processNfts [] credit
  = Some {| totalFee := 0; nftAddresses := []; tokenIds := [];
            values := []; creditUsed := [] |}.
Proof.
  intros H. split; [| reflexivity].
  destruct (processNfts nfts credit) as [r |] eqn:Hr; [exfalso | reflexivity].
  destruct H as [(nft & Hin & Hnone) | (Hne & Hnone)].
  - destruct (processNfts_inv _ _ _ Hr) as (Em & _).
    apply In_nth_error in Hin. destruct Hin as [i Hi].
    pose proof (values_nth _ _ Em i nft Hi) as Hv.
    assert (Hsome : nth_error (map feeWei nfts) i = Some (feeWei nft))
      by (rewrite nth_error_map, Hi; reflexivity).
    rewrite Em, nth_error_map in Hsome.
    destruct (nth_error (values r) i); cbn in Hsome; congruence.
  - destruct nfts as [| nft rest]; [congruence |].
    unfold processNfts in Hr. cbn [forEach] in Hr.
    destruct (processNft (initAllocState credit) nft) as [st1 |] eqn:H1;
      [| discriminate].
    apply processNft_inv in H1.
    destruct H1 as (v & R & _ & HR & _). cbn in HR. congruence.
Qed.

Lemma processNfts_throws_on_unconvertible_amount_witness :
  processNfts [asset "1" (lit 3 10); asset "2" S754_nan] (lit 3 1) = None /\
  processNfts [] (lit 3 1)
  = Some {| totalFee := 0; nftAddresses := []; tokenIds := [];
            values := []; creditUsed := [] |}.
Proof.
  apply processNfts_throws_on_unconvertible_amount.
  left. exists (asset "2" S754_nan). split.
  - cbn. auto.
  - reflexivity.
Defined.

(** X8: Whatever the branch and whatever the credit, the native value
    [checkoutNFTs] attaches to the transaction is the exact sum of the
    fees of the assets in wei; the batched call is used for every number
    of assets but one, with arrays aligned with the assets. *)
Theorem checkoutNFTs_tx_value_is_sum_of_fees
  (nfts : list SelectedNft) (credit : Number) (tx : TxRequest) :
  checkoutNFTs_tx nfts credit = Some tx ->
  exists fees,
    map feeWei nfts = map Some fees /\
    tx_value tx = sumZ fees /\
    match tx with
    | Withdraw _ a t c =>
        exists nft, nfts = [nft] /\ a = nft_address nft /\
                    t = nft_tokenId nft /\ c = credit
    | WithdrawMultiple _ addresses ids vals credits =>
        List.length nfts <> 1%nat /\
        addresses = map nft_address nfts /\ ids = map nft_tokenId nfts /\
        vals = fees /\ List.length credits = List.length nfts
    end.
Proof.
  intros H.
  destruct nfts as [| nft [| nft2 rest]].
  - cbn in H. injection H as <-.
    exists []. cbn. repeat split; auto.
  - apply checkoutNFTs_tx_single in H. destruct H as (v & Hv & ->).
    exists [v]. cbn. rewrite Hv. repeat split; try lia.
    exists nft. auto.
  - unfold checkoutNFTs_tx in H.
    destruct (processNfts (nft :: nft2 :: rest) credit) as [r |] eqn:Hr;
      [| discriminate].
    cbn [option_bind] in H. injection H as <-.
    destruct (processNfts_inv _ _ _ Hr) as (Em & El & Et & Ea & Ei & _).
    exists (values r). cbn [tx_value].
    repeat split; auto. discriminate.
Qed.

Lemma checkoutNFTs_tx_value_is_sum_of_fees_witness :
  exists fees,
    map feeWei [asset "1" (lit 3 10); asset "2" (lit 5 1)] = map Some fees /\
    5299999999999999989 = sumZ fees.
Proof.
  destruct (checkoutNFTs_tx_value_is_sum_of_fees
              [asset "1" (lit 3 10); asset "2" (lit 5 1)] (lit 3 1)
              (WithdrawMultiple 5299999999999999989
                 ["0xA11CE"; "0xA11CE"] ["1"; "2"]
                 [299999999999999989; 5000000000000000000]
                 [299999999999999989; 2700000000000000178])
              ltac:(vm_compute; reflexivity))
    as (fees & H1 & H2 & _).
  exists fees. split; [exact H1 | exact H2].
Defined.

(** ** More on [getWalletNfts] *)

Lemma rentals_deposits_length (anns : list (MetaData * Z)) :
  (List.length (rentals_of anns) + List.length (deposits_of anns))%nat
  = List.length anns.
Proof.
  unfold rentals_of, deposits_of. rewrite !length_map.
  induction anns as [| a anns IH]; [reflexivity |].
  cbn. destruct (snd a =? 0); cbn; lia.
Qed.

Lemma rentals_of_end (anns : list (MetaData * Z)) :
  Forall (fun r => rental_end r <> 0) (rentals_of anns).
Proof.
  unfold rentals_of. apply Forall_forall. intros r Hr.
  apply in_map_iff in Hr. destruct Hr as (a & <- & Ha).
  apply filter_In in Ha. destruct Ha as [_ Ha]. cbn.
  apply negb_true_iff, Z.eqb_neq in Ha. exact Ha.
Qed.

Lemma page_slice_length (page : Z) (data : list OwnedNft) :
  (List.length (page_slice page data) <= 12)%nat.
Proof.
  unfold page_slice. destruct (1 <=? page); [| cbn; lia].
  rewrite length_firstn. change (Z.to_nat pageSize) with 12%nat. lia.
Qed.

Lemma page_slice_out_of_range (page : Z) (data : list OwnedNft) :
  page < 1 \/ Z.of_nat (List.length data) <= pageSize * (page - 1) ->
  page_slice page data = [].
Proof.
  unfold page_slice. intros [H | H].
  - apply Z.ltb_lt in H. rewrite Z.leb_antisym, H. reflexivity.
  - destruct (1 <=? page); [| reflexivity].
    rewrite skipn_all2 by lia. apply firstn_nil.
Qed.

Section EnumeratorMore.

Variable env : Env.

(** What a returning [getWalletNfts] did and returned. *)
Lemma getWalletNfts_inv (owner : Address) (page : Z) (log log' : Log)
  (w : WalletNfts) :
  truthy (Some owner) = true ->
  getWalletNfts env (Some owner) page log = (Ok w, log') ->
  exists data anns new,
    getNftsForOwner env log owner = Ok data /\
    log' = log ++ EvGetNftsForOwner owner :: new /\
    annotated new = map key_of (page_slice page data) /\
    List.length new = (4 * List.length (page_slice page data))%nat /\
    List.length anns = List.length (page_slice page data) /\
    w = RentalsDeposits (rentals_of anns) (deposits_of anns).
Proof.
  intros Ht. unfold getWalletNfts. rewrite Ht.
  unfold bind, alchemy_getNftsForOwner.
  destruct (getNftsForOwner env log owner) as [data | err]; [| discriminate].
  destruct (getWalletNfts_for_is_page env page data
              (log ++ [EvGetNftsForOwner owner])) as [c Hc].
  rewrite Hc.
  destruct (classify_all env (page_slice page data) (mkPageState c [] [])
              (log ++ [EvGetNftsForOwner owner]))
    as [[st | err] log1] eqn:Hall; [| discriminate].
  unfold ret. intros [= <- <-].
  apply classify_all_ok in Hall.
  destruct Hall as (anns & new & -> & Ha & Hl & Hn & Hm & Hd & Hr & _).
  exists data, anns, new. cbn in Hd, Hr. rewrite Hd, Hr.
  rewrite <- app_assoc. cbn [app]. repeat split; auto.
  apply (f_equal (@List.length _)) in Hm. rewrite !length_map in Hm. exact Hm.
Qed.

(** X9: A page never holds more than [pageSize] items, and every rental on
    it has a lock expiry that is not zero. *)
Theorem getWalletNfts_page_bound (owner : Address) (page : Z) (log log' : Log)
  (rentals : list Rental) (deposits : list MetaData) :
  truthy (Some owner) = true ->
  getWalletNfts env (Some owner) page log
  = (Ok (RentalsDeposits rentals deposits), log') ->
  Z.of_nat (List.length rentals + List.length deposits) <= pageSize /\
  Forall (fun r => rental_end r <> 0) rentals.
Proof.
  intros Ht H.
  destruct (getWalletNfts_inv owner page log log' _ Ht H)
    as (data & anns & new & _ & _ & _ & _ & Hl & [= -> ->]).
  split.
  - rewrite rentals_deposits_length, Hl.
    pose proof (page_slice_length page data). unfold pageSize. lia.
  - apply rentals_of_end.
Qed.

(** X10: For a page below 1, or a page that starts after the last item of the
    index, [getWalletNfts] fetches the index, makes no contract call and
    returns two empty lists. *)
Theorem getWalletNfts_page_out_of_range (owner : Address) (page : Z)
  (log : Log) (data : list OwnedNft) :
  truthy (Some owner) = true ->
  getNftsForOwner env log owner = Ok data ->
  page < 1 \/ Z.of_nat (List.length data) <= pageSize * (page - 1) ->
  getWalletNfts env (Some owner) page log
  = (Ok (RentalsDeposits [] []), log ++ [EvGetNftsForOwner owner]).
Proof.
  intros Ht Hdata Hp. unfold getWalletNfts. rewrite Ht.
  unfold bind, alchemy_getNftsForOwner. rewrite Hdata.
  destruct (getWalletNfts_for_is_page env page data
              (log ++ [EvGetNftsForOwner owner])) as [c Hc].
  rewrite Hc, (page_slice_out_of_range page data Hp). reflexivity.
Qed.

(** On a healthy ledger the annotation of an item that can be repackaged
    returns. *)
Lemma annotate_healthy (nft : OwnedNft) (log : Log) :
  healthy env ->
  repackable nft = true ->
  exists md e log', annotate env nft log = (Ok (md, e), log').
Proof.
  intros Hh Hr. unfold repackable in Hr.
  destruct (metadata nft) as [metaData |] eqn:Em; [| discriminate].
  destruct (own_attributes (raw_attributes metaData)) as [attributes |] eqn:Ea;
    [| discriminate].
  unfold annotate, repackageMetadata, bind, callWithRetry, ret.
  rewrite Em.
  repeat match goal with
         | |- context [callWithRetry_reply env ?l ?c ?m ?a] =>
             let z := fresh "z" in
             let E := fresh "E" in
             let B := fresh "B" in
             destruct (Hh l c m a) as (z & E & B); rewrite E; clear E;
             rewrite ?Ea
         end.
  unfold toNumber, ret.
  match goal with
  | H : Z.abs ?z <= _ |- context [Z.abs ?z <=? _] =>
      apply Z.leb_le in H; rewrite H
  end.
  eexists _, _, _. reflexivity.
Qed.

Lemma classify_all_healthy (items : list OwnedNft) :
  healthy env ->
  Forall (fun nft => repackable nft = true) items ->
  forall st log, exists st' log',
    classify_all env items st log = (Ok st', log').
Proof.
  intros Hh Hr. induction Hr as [| nft rest Hnft Hrest IH]; intros st log.
  - eexists _, _. reflexivity.
  - cbn [classify_all]. unfold bind.
    destruct (annotate_healthy nft log Hh Hnft) as (md & e & log1 & E).
    rewrite E. apply IH.
Qed.

(** X11: On a ledger where every contract read returns a value that fits a
    JavaScript number, [getWalletNfts] returns for a page whose items
    all have metadata with attributes that can be spread, once the index
    is fetched. *)
Theorem getWalletNfts_returns_on_healthy_ledger (owner : Address) (page : Z)
  (log : Log) (data : list OwnedNft) :
  healthy env ->
  truthy (Some owner) = true ->
  getNftsForOwner env log owner = Ok data ->
  Forall (fun nft => repackable nft = true) (page_slice page data) ->
  exists rentals deposits log',
    getWalletNfts env (Some owner) page log
    = (Ok (RentalsDeposits rentals deposits), log').
Proof.
  intros Hh Ht Hdata Hr. unfold getWalletNfts. rewrite Ht.
  unfold bind, alchemy_getNftsForOwner. rewrite Hdata.
  destruct (getWalletNfts_for_is_page env page data
              (log ++ [EvGetNftsForOwner owner])) as [c Hc].
  rewrite Hc.
  destruct (classify_all_healthy (page_slice page data) Hh Hr
              (mkPageState c [] []) (log ++ [EvGetNftsForOwner owner]))
    as (st' & log' & E).
  rewrite E. eexists _, _, _. reflexivity.
Qed.

(** ** More on [getTotalWalletNfts] *)

Lemma sleeps_app (l1 l2 : Log) : sleeps (l1 ++ l2) = sleeps l1 ++ sleeps l2.
Proof. unfold sleeps. apply flat_map_app. Qed.

Lemma index_fetches_app (l1 l2 : Log) :
  index_fetches (l1 ++ l2) = (index_fetches l1 + index_fetches l2)%nat.
Proof. unfold index_fetches. rewrite filter_app, length_app. reflexivity. Qed.

Lemma calls_only (new : Log) :
  forallb is_call new = true -> sleeps new = [] /\ index_fetches new = 0%nat.
Proof.
  induction new as [| ev new IH]; [split; reflexivity |].
  cbn [forallb]. intros H. apply andb_true_iff in H. destruct H as [He Hn].
  destruct ev; try discriminate. apply IH. exact Hn.
Qed.

(** An annotation makes contract calls and nothing else. *)
Lemma annotate_calls_only (nft : OwnedNft) (log : Log) :
  exists new,
    snd (annotate env nft log) = log ++ new /\ forallb is_call new = true.
Proof.
  unfold annotate, repackageMetadata, bind, callWithRetry, ret, toNumber,
    throw.
  repeat match goal with
         | |- context [match ?r with Throws _ => _ | Returns _ => _ end] =>
             destruct r
         | |- context [match ?v with Some _ => _ | None => _ end] =>
             destruct v
         | |- context [if ?c then _ else _] => destruct c
         end;
    cbn [snd]; rewrite <- ?app_assoc;
    first [ eexists; split; reflexivity
          | exists []; rewrite app_nil_r; split; reflexivity ].
Qed.

Lemma countWalk_calls_only (items : list OwnedNft) :
  forall c log, exists new,
    snd (countWalk env items c log) = log ++ new /\
    forallb is_call new = true.
Proof.
  induction items as [| nft rest IH]; intros c log.
  - exists []. cbn. rewrite app_nil_r. auto.
  - cbn [countWalk].
    destruct (annotate_calls_only nft log) as (new1 & E1 & H1).
    destruct (annotate env nft log) as [[[md e] | err] log1]; cbn [snd] in E1;
      subst log1.
    + match goal with
      | |- context [countWalk env rest ?c' _] =>
          destruct (IH c' (log ++ new1)) as (new2 & E2 & H2)
      end.
      exists (new1 ++ new2). rewrite E2, app_assoc, forallb_app, H1, H2. auto.
    + exists new1. auto.
Qed.

(** A pass fetches the index once and sleeps never. *)
Lemma tryWalk_log (owner : Address) (c : Counts) (log : Log) :
  sleeps (snd (tryWalk env owner c log)) = sleeps log /\
  index_fetches (snd (tryWalk env owner c log)) = S (index_fetches log).
Proof.
  unfold tryWalk, alchemy_getNftsForOwner.
  destruct (getNftsForOwner env log owner) as [data | err].
  - destruct (countWalk_calls_only data c (log ++ [EvGetNftsForOwner owner]))
      as (new & E & H).
    rewrite E. apply calls_only in H. destruct H as [Hs Hi].
    rewrite !sleeps_app, !index_fetches_app, Hs, Hi. cbn.
    rewrite !app_nil_r. split; [reflexivity | lia].
  - cbn [snd]. rewrite sleeps_app, index_fetches_app. cbn.
    rewrite app_nil_r. split; [reflexivity | lia].
Qed.

Lemma delays_S (retryCount : Z) (n : nat) :
  delays retryCount (S n)
  = initialDelay * 2 ^ retryCount :: delays (retryCount + 1) n.
Proof.
  unfold delays. cbn [seq map]. rewrite Z.add_0_r. f_equal.
  rewrite <- seq_shift, map_map. apply map_ext. intros k.
  do 2 f_equal. lia.
Qed.

Lemma whileTrue_schedule (fuel : nat) :
  forall owner retryCount c log res log',
    0 <= retryCount < 5 ->
    whileTrue env fuel owner retryCount c log = Some (res, log') ->
    exists n : nat,
      retryCount + Z.of_nat n <= 5 /\
      sleeps log' = sleeps log ++ delays retryCount n /\
      ((exists c', res = Ok c' /\ retryCount + Z.of_nat n < 5 /\
                   index_fetches log' = (index_fetches log + n + 1)%nat)
       \/ (res = Thrown "Max retry count reached" /\
           retryCount + Z.of_nat n = 5 /\
           index_fetches log' = (index_fetches log + n)%nat)).
Proof.
  induction fuel as [| fuel IH];
    intros owner retryCount c log res log' Hr H; [discriminate |].
  cbn [whileTrue] in H.
  pose proof (tryWalk_log owner c log) as [Hs Hi].
  destruct (tryWalk env owner c log) as [[[u | err] c1] log1];
    cbn [snd] in Hs, Hi.
  - injection H as <- <-. exists 0%nat. cbn [delays seq map].
    rewrite app_nil_r. split; [lia |]. split; [exact Hs |].
    left. exists c1. repeat split; lia.
  - destruct (retryCount + 1 >=? 5) eqn:Hge.
    + injection H as <- <-. apply Z.geb_le in Hge.
      exists 1%nat. split; [lia |]. split.
      * rewrite sleeps_app, Hs. cbn. rewrite Z.add_0_r. reflexivity.
      * right. rewrite index_fetches_app, Hi. cbn. repeat split; lia.
    + rewrite Z.geb_leb in Hge. apply Z.leb_gt in Hge.
      apply IH in H; [| lia].
      destruct H as (n & Hn & Hsl & Hres).
      exists (S n). split; [lia |]. split.
      * rewrite Hsl, sleeps_app, Hs, delays_S. cbn.
        rewrite <- app_assoc. reflexivity.
      * rewrite index_fetches_app, Hi in Hres. cbn in Hres.
        destruct Hres as [(c' & -> & Hlt & Hf) | (-> & Heq & Hf)].
        -- left. exists c'. repeat split; lia.
        -- right. repeat split; lia.
Qed.

(** X12: [getTotalWalletNfts] walks the index at most five times. After each
    failed pass it sleeps 1000 ms doubled once per earlier failure, so
    the delays are a prefix of 1, 2, 4, 8, 16 seconds; it returns a count
    after fewer than five failed passes and throws "Max retry count
    reached" after the fifth. *)
Theorem getTotalWalletNfts_retry_schedule (owner : Address) (type : string)
  (log log' : Log) (res : Outcome Z) :
  truthy (Some owner) = true ->
  getTotalWalletNfts env (Some owner) type log = Some (res, log') ->
  exists failed : nat,
    (failed <= 5)%nat /\
    sleeps log' = sleeps log ++ firstn failed retry_schedule /\
    index_fetches log' = (index_fetches log + Nat.min (failed + 1) 5)%nat /\
    ((failed < 5)%nat -> exists n, res = Ok n) /\
    (failed = 5%nat -> res = Thrown "Max retry count reached").
Proof.
  intros Ht. unfold getTotalWalletNfts, getTotalWalletNfts_fuel. rewrite Ht.
  destruct (whileTrue env 5 owner 0 (mkCounts 0 0) log) as [[r l] |] eqn:H;
    [| discriminate].
  apply whileTrue_schedule in H; [| lia].
  destruct H as (n & Hn & Hsl & Hres).
  assert (Hd : delays 0 n = firstn n retry_schedule).
  { do 6 (destruct n as [| n]; [reflexivity |]). lia. }
  rewrite Hd in Hsl.
  intros Hret. exists n.
  destruct Hres as [(c' & -> & Hlt & Hf) | (-> & Heq & Hf)];
    injection Hret as <- <-; repeat split; try lia; try exact Hsl;
    intros _; try reflexivity; eexists; reflexivity.
Qed.

(** On a stable ledger the annotation of an item gives the same result
    whenever it is made. *)
Lemma annotate_stable (nft : OwnedNft) (log : Log) :
  stable env -> fst (annotate env nft log) = fst (annotate env nft []).
Proof.
  intros [Hc _].
  unfold annotate, repackageMetadata, bind, callWithRetry, ret, toNumber,
    throw.
  destruct (metadata nft) as [metaData |]; [| reflexivity].
  repeat first
    [ match goal with
      | |- context [own_attributes ?a] => destruct (own_attributes a)
      end
    | match goal with
      | |- context [callWithRetry_reply env ?l ?c ?m ?a] =>
          lazymatch l with
          | [] => fail
          | _ => rewrite (Hc l c m a)
          end
      end
    | match goal with
      | |- context [match callWithRetry_reply env [] ?c ?m ?a with
                    | Throws _ => _ | Returns _ => _ end] =>
          destruct (callWithRetry_reply env [] c m a);
          cbn [md_address md_tokenId fst]
      end ];
    try reflexivity.
  repeat match goal with
         | |- context [match ?v with Some _ => _ | None => _ end] =>
             destruct v
         | |- context [if ?c then _ else _] => destruct c
         end; reflexivity.
Qed.

(** On a stable ledger the counting walk counts what the listing walk
    lists. *)
Lemma countWalk_of_classify_all (items : list OwnedNft) :
  stable env ->
  forall st log st' log',
    classify_all env items st log = (Ok st', log') ->
    exists anns,
      ps_rentals st' = ps_rentals st ++ rentals_of anns /\
      ps_deposits st' = ps_deposits st ++ deposits_of anns /\
      forall c log2, exists log2',
        countWalk env items c log2
        = (Ok tt,
           mkCounts (rentedCount c + Z.of_nat (List.length (rentals_of anns)))
                    (ownedCount c + Z.of_nat (List.length (deposits_of anns))),
           log2').
Proof.
  intros Hs. induction items as [| nft rest IH]; intros st log st' log' H.
  - cbn in H. injection H as <- <-. exists []. cbn.
    rewrite !app_nil_r. repeat split.
    intros [r o] log2. exists log2. cbn. rewrite !Z.add_0_r. reflexivity.
  - cbn [classify_all] in H. unfold bind in H.
    destruct (annotate env nft log) as [[[md e] | err] log1] eqn:Ha;
      [| discriminate].
    cbn [fst snd] in H.
    apply IH in H. destruct H as (anns & Hr & Hd & Hc).
    destruct (classify_lists st (ps_count st + 1) md e) as (Ed & Er & _).
    exists ((md, e) :: anns).
    rewrite Hr, Hd, Ed, Er.
    rewrite (deposits_of_cons (md, e) anns), (rentals_of_cons (md, e) anns).
    rewrite <- !app_assoc. repeat split.
    intros c log2. cbn [countWalk].
    assert (E2 : fst (annotate env nft log2) = Ok (md, e)).
    { rewrite (annotate_stable nft log2 Hs), <- (annotate_stable nft log Hs), Ha.
      reflexivity. }
    destruct (annotate env nft log2) as [r2 l2]. cbn [fst] in E2. subst r2.
    match goal with
    | |- context [countWalk env rest ?c' l2] =>
        destruct (Hc c' l2) as (log2' & E)
    end.
    exists log2'. rewrite E. do 2 f_equal.
    unfold rentals_of, deposits_of. cbn [filter snd fst map].
    destruct (e =? 0); cbn [negb map List.length app rentedCount ownedCount];
      f_equal; lia.
Qed.

(** X13: On a stable ledger with at most one page of items, the counts agree
    with the listing: [getTotalWalletNfts] returns the number of rentals
    and the number of deposits that [getWalletNfts] lists on page 1. *)
Theorem getTotalWalletNfts_counts_the_listing (owner : Address)
  (data : list OwnedNft) (log log' log2 : Log)
  (rentals : list Rental) (deposits : list MetaData) :
  stable env ->
  truthy (Some owner) = true ->
  getNftsForOwner env [] owner = Ok data ->
  Z.of_nat (List.length data) <= pageSize ->
  getWalletNfts env (Some owner) 1 log
  = (Ok (RentalsDeposits rentals deposits), log') ->
  exists l1 l2,
    getTotalWalletNfts env (Some owner) "rented" log2
    = Some (Ok (Z.of_nat (List.length rentals)), l1) /\
    getTotalWalletNfts env (Some owner) "owned" log2
    = Some (Ok (Z.of_nat (List.length deposits)), l2).
Proof.
  intros Hs Ht Hdata Hlen.
  assert (Hidx : forall l, getNftsForOwner env l owner = Ok data)
    by (intros l; destruct Hs as [_ Hi]; rewrite Hi; exact Hdata).
  unfold getWalletNfts. rewrite Ht.
  unfold bind, alchemy_getNftsForOwner. rewrite Hidx.
  destruct (getWalletNfts_for_is_page env 1 data
              (log ++ [EvGetNftsForOwner owner])) as [c0 Hc0].
  rewrite Hc0.
  assert (Hslice : page_slice 1 data = data).
  { unfold page_slice. cbn [Z.leb Z.compare Z.sub Z.mul Z.to_nat skipn].
    change (pageSize * (1 - 1)) with 0. cbn [Z.to_nat skipn].
    apply firstn_all2. unfold pageSize in *. lia. }
  rewrite Hslice.
  destruct (classify_all env data (mkPageState c0 [] [])
              (log ++ [EvGetNftsForOwner owner]))
    as [[st | err] log1] eqn:Hall; [| discriminate].
  unfold ret. intros [= <- <- <-].
  apply (countWalk_of_classify_all data Hs) in Hall.
  destruct Hall as (anns & Hr & Hd & Hc). cbn in Hr, Hd. rewrite Hr, Hd.
  destruct (Hc (mkCounts 0 0) (log2 ++ [EvGetNftsForOwner owner]))
    as (l & E).
  exists l, l.
  unfold getTotalWalletNfts, getTotalWalletNfts_fuel. rewrite Ht.
  cbn [whileTrue]. unfold tryWalk, alchemy_getNftsForOwner.
  rewrite Hidx, E. cbn. split; reflexivity.
Qed.

(** ** More on [exponentialBackoff] *)

Lemma timeout_count_app (l1 l2 : Log) :
  timeout_count (l1 ++ l2) = (timeout_count l1 + timeout_count l2)%nat.
Proof. unfold timeout_count. rewrite filter_app, length_app. reflexivity. Qed.

Lemma console_count_app (l1 l2 : Log) :
  console_count (l1 ++ l2) = (console_count l1 + console_count l2)%nat.
Proof. unfold console_count. rewrite filter_app, length_app. reflexivity. Qed.

Lemma exponentialBackoff_for_bounds (params : list Arg) (n : nat) :
  forall i log,
    i = 6 - Z.of_nat n ->
    exists new,
      snd (exponentialBackoff_for env n i params log) = log ++ new /\
      match fst (exponentialBackoff_for env n i params log) with
      | Formatted _ =>
          (1 <= fetch_count new <= n)%nat /\
          timeout_count new = (fetch_count new - 1)%nat /\
          console_count new = 0%nat
      | Null =>
          fetch_count new = n /\
          timeout_count new = (n - 1)%nat /\
          console_count new = Nat.min n 1
      end.
Proof.
  induction n as [| n IH]; intros i log Hi.
  - exists []. cbn. rewrite app_nil_r. auto.
  - cbn [exponentialBackoff_for].
    destruct (fetchFn env log params) as [err | result].
    + destruct (i <? maxRetries) eqn:Hlt.
      * apply Z.ltb_lt in Hlt. unfold maxRetries in Hlt.
        match goal with
        | |- context [exponentialBackoff_for env n (i + 1) params ?l] =>
            destruct (IH (i + 1) l ltac:(lia)) as (new & E & H);
            destruct (exponentialBackoff_for env n (i + 1) params l)
              as [r l']
        end.
        cbn [fst snd] in *. subst l'.
        eexists. split; [rewrite <- !app_assoc; reflexivity |].
        cbn [app].
        change (EvFetch params :: EvSetTimeout ?d :: new)
          with ([EvFetch params; EvSetTimeout d] ++ new).
        rewrite fetch_count_app, timeout_count_app, console_count_app.
        cbn [fetch_count timeout_count console_count filter is_fetch
               is_timeout is_console List.length].
        destruct r; destruct H as (H1 & H2 & H3); repeat split; lia.
      * apply Z.ltb_ge in Hlt. unfold maxRetries in Hlt.
        assert (n = 0%nat) by lia. subst n.
        cbn [exponentialBackoff_for fst snd].
        eexists. split; [rewrite <- !app_assoc; reflexivity |].
        cbn. auto.
    + cbn [fst snd]. exists [EvFetch params]. split; [reflexivity |].
      cbn. repeat split; lia.
Qed.

(** X14: Whatever [fetchFn] does, [exponentialBackoff] calls it at least once
    and at most six times and never throws. When it resolves to a reply
    it has set one timer per failed attempt and printed nothing; when it
    resolves to [null] it has made six attempts, set five timers (none
    after the last attempt) and printed the last error once. *)
Theorem exponentialBackoff_attempt_bounds (params : list Arg) (log : Log) :
  exists new,
    snd (exponentialBackoff env params log) = log ++ new /\
    (1 <= fetch_count new <= 6)%nat /\
    match fst (exponentialBackoff env params log) with
    | Formatted _ =>
        timeout_count new = (fetch_count new - 1)%nat /\
        console_count new = 0%nat
    | Null =>
        fetch_count new = 6%nat /\ timeout_count new = 5%nat /\
        console_count new = 1%nat
    end.
Proof.
  unfold exponentialBackoff. change (Z.to_nat (maxRetries + 1)) with 6%nat.
  destruct (exponentialBackoff_for_bounds params 6 0 log eq_refl)
    as (new & E & H).
  exists new. split; [exact E |].
  destruct (fst (exponentialBackoff_for env 6 0 params log));
    cbn in H; intuition lia.
Qed.

(** ** [repackageMetadata] *)

(** A successful repackaging: the item has metadata whose attributes can
    be spread, the price and then the value were read and returned what
    the ledger answers at that point, and nothing else happened. *)
Lemma repackageMetadata_inv (nft : OwnedNft) (log log' : Log) (md : MetaData) :
  repackageMetadata env nft log = (Ok md, log') ->
  exists metaData attributes price value,
    metadata nft = Some metaData /\
    own_attributes (raw_attributes metaData) = Some attributes /\
    callWithRetry_reply env log VAULT "getPrice" (key_args nft)
    = Returns price /\
    callWithRetry_reply env (log ++ firstn 1 (repackage_calls nft))
      VAULT "getValue" (key_args nft)
    = Returns value /\
    md = repackaged (getNativeCurrency env) nft metaData attributes
                    price value /\
    log' = log ++ repackage_calls nft.
Proof.
  unfold repackageMetadata, bind, callWithRetry, ret, throw.
  destruct (metadata nft) as [metaData |]; [| discriminate].
  destruct (callWithRetry_reply env log VAULT "getPrice" _)
    as [? | price] eqn:Ep; [discriminate |].
  destruct (callWithRetry_reply env _ VAULT "getValue" _)
    as [? | value] eqn:Ev; [discriminate |].
  destruct (own_attributes (raw_attributes metaData)) as [attributes |] eqn:Ea;
    [| discriminate].
  intros [= <- <-].
  exists metaData, attributes, price, value.
  unfold repackage_calls. cbn [firstn].
  rewrite <- app_assoc. cbn [app].
  repeat split; try assumption; reflexivity.
Qed.

Lemma repackageMetadata_log (nft : OwnedNft) (log log' : Log) (md : MetaData) :
  repackageMetadata env nft log = (Ok md, log') ->
  exists new,
    log' = log ++ new /\ List.length new = 2%nat /\
    forallb is_call new = true /\ md_key md = key_of nft.
Proof.
  intros H. apply repackageMetadata_inv in H.
  destruct H as (metaData & attributes & price & value
                 & _ & _ & _ & _ & -> & ->).
  eexists. repeat split.
Qed.

(** ** [getVaultNFTs] *)

Lemma repackage_all_ok (items : list OwnedNft) :
  forall st log st' log',
    repackage_all env items st log = (Ok st', log') ->
    exists new mds,
      log' = log ++ new /\
      List.length new = (2 * List.length items)%nat /\
      forallb is_call new = true /\
      vs_nfts st' = vs_nfts st ++ mds /\
      map md_key mds = map key_of items /\
      vs_count st' = vs_count st + Z.of_nat (List.length items) /\
      repackage_trace env log items mds log'.
Proof.
  induction items as [| nft rest IH]; intros st log st' log' H.
  - cbn in H. injection H as <- <-. exists [], []. cbn.
    rewrite !app_nil_r, Z.add_0_r. repeat split. constructor.
  - cbn [repackage_all] in H. unfold bind in H.
    destruct (repackageMetadata env nft log) as [[md | err] log1] eqn:Hm;
      [| discriminate].
    pose proof (repackageMetadata_inv _ _ _ _ Hm)
      as (metaData & attributes & price & value
          & Em & Eat & Ep & Ev & Emd & Elog).
    apply repackageMetadata_log in Hm.
    destruct Hm as (new1 & -> & Hn1 & Hc1 & Hk).
    apply IH in H.
    destruct H as (new & mds & -> & Hn & Hc & Hv & Hmap & Hcount & Htr).
    exists (new1 ++ new), (md :: mds). cbn [vs_nfts vs_count] in *.
    rewrite length_app, forallb_app, Hn1, Hn, Hc1, Hc, Hv, Hcount.
    rewrite <- !app_assoc. cbn [map List.length app]. rewrite Hk, Hmap.
    repeat split; try lia.
    rewrite Emd.
    change (log ++ new1 ++ new) with (log ++ (new1 ++ new)).
    rewrite app_assoc.
    apply (repackage_item env log _ nft rest metaData attributes price value
             mds Em Eat Ep Ev).
    rewrite <- Elog. exact Htr.
Qed.

(** Items before the requested page are counted and nothing else. *)
Lemma getVaultNFTs_for_skip (page : Z) (l1 : list OwnedNft) :
  forall l2 st log,
    vs_count st + Z.of_nat (List.length l1) <= pageSize * (page - 1) ->
    Z.of_nat (List.length (vs_nfts st)) <> pageSize ->
    getVaultNFTs_for env page (l1 ++ l2) st log
    = getVaultNFTs_for env page l2
        (mkVaultPageState (vs_count st + Z.of_nat (List.length l1))
                          (vs_nfts st)) log.
Proof.
  induction l1 as [| nft l1 IH]; intros l2 st log H Hfull.
  - cbn [app List.length Z.of_nat]. rewrite Z.add_0_r.
    destruct st; reflexivity.
  - cbn [app getVaultNFTs_for]. cbn [List.length] in H.
    assert (Hp : page_of_count (vs_count st + 1) <> page).
    { pose proof (page_of_count_before page (vs_count st + 1)). lia. }
    apply Z.eqb_neq in Hp. rewrite Hp.
    unfold bind, ret. cbn [vs_nfts].
    apply Z.eqb_neq in Hfull. rewrite Hfull. apply Z.eqb_neq in Hfull.
    rewrite IH by (cbn [vs_count vs_nfts]; auto; lia).
    cbn [vs_count vs_nfts List.length].
    do 2 f_equal. lia.
Qed.

(** For a page below 1 every item is counted and none is on the page. *)
Lemma getVaultNFTs_for_none (page : Z) (items : list OwnedNft) :
  forall st log,
    page < 1 -> 0 <= vs_count st ->
    Z.of_nat (List.length (vs_nfts st)) <> pageSize ->
    getVaultNFTs_for env page items st log
    = (Ok (mkVaultPageState (vs_count st + Z.of_nat (List.length items))
                            (vs_nfts st)), log).
Proof.
  induction items as [| nft rest IH]; intros st log Hp Hc Hfull.
  - cbn. rewrite Z.add_0_r. destruct st; reflexivity.
  - cbn [getVaultNFTs_for].
    assert (Hn : page_of_count (vs_count st + 1) <> page).
    { pose proof (page_of_count_pos (vs_count st + 1)). lia. }
    apply Z.eqb_neq in Hn. rewrite Hn.
    unfold bind, ret. cbn [vs_nfts].
    apply Z.eqb_neq in Hfull. rewrite Hfull. apply Z.eqb_neq in Hfull.
    rewrite IH by (cbn [vs_count vs_nfts]; auto; lia).
    cbn [vs_count vs_nfts List.length]. do 3 f_equal. lia.
Qed.

(** On the requested page every item is repackaged, until the page is
    full. *)
Lemma getVaultNFTs_for_page (page : Z) (items : list OwnedNft) :
  forall st log k,
    vs_count st = pageSize * (page - 1) + Z.of_nat k ->
    k = List.length (vs_nfts st) ->
    (k < 12)%nat ->
    getVaultNFTs_for env page items st log
    = repackage_all env (firstn (12 - k) items) st log.
Proof.
  induction items as [| nft rest IH]; intros st log k Hc Hk Hlt.
  - rewrite firstn_nil. reflexivity.
  - destruct (12 - k)%nat as [| m] eqn:Em; [lia |].
    cbn [firstn getVaultNFTs_for repackage_all].
    rewrite Hc.
    replace (pageSize * (page - 1) + Z.of_nat k + 1)
      with (pageSize * (page - 1) + Z.of_nat (S k)) by lia.
    rewrite page_of_count_within by (unfold pageSize; lia).
    rewrite Z.eqb_refl.
    unfold bind.
    destruct (repackageMetadata env nft log) as [[md | err] log1];
      [| reflexivity].
    unfold ret. cbn [vs_nfts].
    rewrite length_app, <- Hk. cbn [List.length].
    replace (k + 1)%nat with (S k) by lia.
    destruct (Z.of_nat (S k) =? pageSize) eqn:Hfull.
    + apply Z.eqb_eq in Hfull. unfold pageSize in Hfull.
      assert (m = 0%nat) by lia. subst m.
      rewrite firstn_O. reflexivity.
    + apply Z.eqb_neq in Hfull. unfold pageSize in Hfull.
      replace m with (12 - S k)%nat by lia.
      apply IH; cbn [vs_count vs_nfts].
      * reflexivity.
      * rewrite length_app. cbn. lia.
      * lia.
Qed.

(** The loop of [getVaultNFTs] repackages the items of the requested
    page and only them, having counted the items before the page. *)
Lemma getVaultNFTs_for_is_page (page : Z) (items : list OwnedNft) (log : Log) :
  1 <= page ->
  getVaultNFTs_for env page items (mkVaultPageState 0 []) log
  = repackage_all env (page_slice page items)
      (mkVaultPageState
         (Z.of_nat (Nat.min (Z.to_nat (pageSize * (page - 1)))
                            (List.length items))) []) log.
Proof.
  intros Hp. unfold page_slice.
  assert (Hp' : (1 <=? page) = true) by (apply Z.leb_le; exact Hp).
  rewrite Hp'.
  set (n := Z.to_nat (pageSize * (page - 1))).
  assert (Hn : Z.of_nat n = pageSize * (page - 1))
    by (unfold n, pageSize; lia).
  assert (E : getVaultNFTs_for env page items (mkVaultPageState 0 []) log
              = getVaultNFTs_for env page (firstn n items ++ skipn n items)
                  (mkVaultPageState 0 []) log)
    by (rewrite firstn_skipn; reflexivity).
  rewrite E. clear E.
  rewrite getVaultNFTs_for_skip.
  2:{ cbn [vs_count]. rewrite length_firstn. lia. }
  2:{ cbn. unfold pageSize. lia. }
  cbn [vs_count vs_nfts]. rewrite length_firstn, Z.add_0_l.
  destruct (Nat.le_gt_cases n (List.length items)) as [Hle | Hgt].
  - rewrite Nat.min_l by exact Hle.
    change (Z.to_nat pageSize) with (12 - 0)%nat.
    apply getVaultNFTs_for_page; cbn [vs_count vs_nfts List.length]; lia.
  - rewrite skipn_all2 by lia. rewrite firstn_nil. reflexivity.
Qed.

(** X16: With no address (an empty list, or none at all) [getVaultNFTs]
    returns the empty list without asking for the chain id or touching
    the index, whatever asking for the chain id would do. With a
    non-empty list of addresses it throws what asking for the chain id
    throws, before any read; and when it returns, what it returns are
    the items of the requested page, in the order of the index, each
    repackaged with the price and the value read for its address and
    token id, and these reads, the price and then the value of each item
    of the page in turn, are all it did: no item before or after the
    page is repackaged. *)
Theorem getVaultNFTs_returns_requested_page (C : ChainIds) (N : NetworkNames)
  (chainId : Outcome string) (yielded : list OwnedNft)
  (addresses : list Address) (page : Z) (log : Log) :
  getVaultNFTs env C N chainId yielded (Some []) page log = (Ok [], log) /\
  getVaultNFTs env C N chainId yielded None page log = (Ok [], log) /\
  (addresses <> [] ->
   (forall err,
       chainId = Thrown err ->
       getVaultNFTs env C N chainId yielded (Some addresses) page log
       = (Thrown err, log)) /\
   (forall nfts log',
       getVaultNFTs env C N chainId yielded (Some addresses) page log
       = (Ok nfts, log') ->
       repackage_trace env log (page_slice page yielded) nfts log' /\
       exists new,
         log' = log ++ new /\
         List.length new = (2 * List.length (page_slice page yielded))%nat /\
         forallb is_call new = true /\
         map md_key nfts = map key_of (page_slice page yielded))).
Proof.
  split; [reflexivity |]. split; [reflexivity |].
  intros Hne.
  destruct addresses as [| a rest]; [congruence |].
  split.
  - intros err ->. reflexivity.
  - intros nfts log' H.
    unfold getVaultNFTs in H.
    destruct chainId as [id | err]; [| discriminate].
    unfold bind in H.
    destruct (Z_lt_le_dec page 1) as [Hp | Hp].
    + rewrite getVaultNFTs_for_none in H by (cbn; auto; try lia; discriminate).
      cbn in H. injection H as <- <-.
      rewrite (page_slice_out_of_range page yielded) by auto.
      split; [constructor |].
      exists []. rewrite app_nil_r. repeat split.
    + rewrite getVaultNFTs_for_is_page in H by exact Hp.
      destruct (repackage_all env (page_slice page yielded) _ log)
        as [[st | err] log1] eqn:E; [| discriminate].
      cbn in H. injection H as <- <-.
      apply repackage_all_ok in E.
      destruct E as (new & mds & E & Hn & Hc & Hv & Hm & _ & Htr).
      cbn in Hv. rewrite Hv. split; [exact Htr |].
      exists new. repeat split; auto.
Qed.

(** X17: The loop of [getVaultNFTs] stops pulling items from the iterator at
    the last item of the requested page: it consumes [pageSize * page]
    items, or all of them when there are fewer; for a page below 1 it
    consumes the whole index. *)
Theorem getVaultNFTs_for_consumption (page : Z) (yielded : list OwnedNft)
  (log log' : Log) (st' : VaultPageState) :
  getVaultNFTs_for env page yielded (mkVaultPageState 0 []) log
  = (Ok st', log') ->
  vs_count st'
  = if 1 <=? page
    then Z.min (Z.of_nat (List.length yielded)) (pageSize * page)
    else Z.of_nat (List.length yielded).
Proof.
  intros H. destruct (1 <=? page) eqn:Hp.
  - apply Z.leb_le in Hp.
    rewrite getVaultNFTs_for_is_page in H by exact Hp.
    apply repackage_all_ok in H.
    destruct H as (new & mds & _ & _ & _ & _ & _ & Hc & _).
    rewrite Hc. cbn [vs_count]. unfold page_slice.
    assert (Hp' : (1 <=? page) = true) by (apply Z.leb_le; exact Hp).
    rewrite Hp', length_firstn, length_skipn.
    unfold pageSize. lia.
  - apply Z.leb_gt in Hp.
    rewrite getVaultNFTs_for_none in H by (cbn; auto; try lia; discriminate).
    injection H as <- <-. cbn. reflexivity.
Qed.

(** ** [getRentalAmountInfo] *)

(** Subtracting the number zero changes nothing. *)
Lemma SFsub_zero_r (x : Number) : SFsub prec emax x Number_zero = x.
Proof. destruct x as [[|] | [|] | | s m e]; reflexivity. Qed.

(** X18: [getRentalAmountInfo] never throws. Either both reads returned, it
    printed nothing, and it returns the difference of the two amounts as
    a number and the maximum as the string [formatEther] prints; or a
    read threw, the error was printed once, and it returns the numbers 0
    and 0. For a falsy wallet only the maximum is read, and the remaining
    amount is the maximum. For a truthy wallet the maximum is read and
    then the amount rented by that wallet, and the remaining amount is
    the number the first string prints minus the number the second
    prints. A read that throws is the last one made, and its error is
    the one printed. *)
Theorem getRentalAmountInfo_never_throws (proxyWallet : option Address)
  (log : Log) :
  exists remaining maxRentalAmount new,
    getRentalAmountInfo env proxyWallet log
    = (Ok (AmountNumber remaining, maxRentalAmount), log ++ new) /\
    ((console_count new = 0%nat /\
      exists reply,
        callWithRetry_reply env log VAULT "getMaxRentalAmount" []
        = Returns reply /\
        maxRentalAmount = AmountString (or_zero reply))
     \/ (console_count new = 1%nat /\
         remaining = Number_zero /\
         maxRentalAmount = AmountNumber Number_zero)) /\
    (truthy proxyWallet = false ->
     forall reply,
       callWithRetry_reply env log VAULT "getMaxRentalAmount" []
       = Returns reply ->
       remaining = parseFloat_formatEther (or_zero reply) /\
       new = [EvCallWithRetry VAULT "getMaxRentalAmount" []]) /\
    (truthy proxyWallet = true ->
     forall reply,
       callWithRetry_reply env log VAULT "getMaxRentalAmount" []
       = Returns reply ->
       (forall reply',
           callWithRetry_reply env
             (log ++ [EvCallWithRetry VAULT "getMaxRentalAmount" []])
             VAULT "getRentalAmount" [arg_of_tokenId proxyWallet]
           = Returns reply' ->
           remaining
           = SFsub prec emax (parseFloat_formatEther (or_zero reply))
                   (parseFloat_formatEther (or_zero reply')) /\
           maxRentalAmount = AmountString (or_zero reply) /\
           new = [EvCallWithRetry VAULT "getMaxRentalAmount" [];
                  EvCallWithRetry VAULT "getRentalAmount"
                    [arg_of_tokenId proxyWallet]]) /\
       (forall err,
           callWithRetry_reply env
             (log ++ [EvCallWithRetry VAULT "getMaxRentalAmount" []])
             VAULT "getRentalAmount" [arg_of_tokenId proxyWallet]
           = Throws err ->
           new = [EvCallWithRetry VAULT "getMaxRentalAmount" [];
                  EvCallWithRetry VAULT "getRentalAmount"
                    [arg_of_tokenId proxyWallet];
                  EvConsole err])) /\
    (forall err,
        callWithRetry_reply env log VAULT "getMaxRentalAmount" []
        = Throws err ->
        new = [EvCallWithRetry VAULT "getMaxRentalAmount" [];
               EvConsole err]).
Proof.
  unfold getRentalAmountInfo, try_catch, bind, callWithRetry, console_log, ret.
  destruct (callWithRetry_reply env log VAULT "getMaxRentalAmount" [])
    as [err | reply] eqn:Emax.
  - eexists _, _, _. split; [rewrite <- app_assoc; reflexivity |].
    split; [right; cbn; auto |].
    split; [intros _ reply H; discriminate |].
    split; [intros _ reply H; discriminate |].
    intros err0 [= <-]. reflexivity.
  - destruct (truthy proxyWallet) eqn:Ht.
    + destruct (callWithRetry_reply env _ VAULT "getRentalAmount" _)
        as [err | reply'] eqn:Ecur.
      * eexists _, _, _. split; [rewrite <- !app_assoc; reflexivity |].
        split; [right; cbn; auto |].
        split; [intros H; discriminate |].
        split; [| intros err0 H; discriminate].
        intros _ reply0 [= <-]. split.
        -- intros reply0 H. discriminate.
        -- intros err0 [= <-]. reflexivity.
      * eexists _, _, _. split; [rewrite <- !app_assoc; reflexivity |].
        split; [left; split; [reflexivity |]; exists reply; auto |].
        split; [intros H; discriminate |].
        split; [| intros err0 H; discriminate].
        intros _ reply0 [= <-]. split.
        -- intros reply0 [= <-]. cbn [amount_to_Number]. auto.
        -- intros err0 H. discriminate.
    + eexists _, _, _. split; [reflexivity |].
      split; [left; split; [reflexivity |]; exists reply; auto |].
      split; [| split; [intros H; discriminate | intros err0 H; discriminate]].
      intros _ reply0 [= <-]. cbn [amount_to_Number].
      rewrite SFsub_zero_r. auto.
Qed.

(** On a healthy ledger the counting walk counts every item once. *)
Lemma countWalk_healthy (items : list OwnedNft) :
  healthy env ->
  Forall (fun nft => repackable nft = true) items ->
  forall c log, exists c' log',
    countWalk env items c log = (Ok tt, c', log') /\
    rentedCount c <= rentedCount c' /\ ownedCount c <= ownedCount c' /\
    rentedCount c' + ownedCount c'
    = rentedCount c + ownedCount c + Z.of_nat (List.length items).
Proof.
  intros Hh Hr. induction Hr as [| nft rest Hnft Hrest IH]; intros c log.
  - exists c, log. cbn. repeat split; lia.
  - cbn [countWalk].
    destruct (annotate_healthy nft log Hh Hnft) as (md & e & log1 & E).
    rewrite E.
    match goal with
    | |- context [countWalk env rest ?c1 log1] =>
        destruct (IH c1 log1) as (c' & log' & E' & Hr & Ho & Hsum)
    end.
    exists c', log'. split; [exact E' |].
    destruct (e =? 0); cbn [rentedCount ownedCount List.length] in *;
      repeat split; lia.
Qed.

(** X20: on a ledger where every contract read returns a value that
    fits a JavaScript number, and an index whose items all have metadata
    with attributes that can be spread, [getTotalWalletNfts] succeeds on
    its first pass: it fetches the index once and does not sleep, and
    the rented count and the owned count it returns from the same state
    are not negative and add up to the number of items in the index. *)
Theorem getTotalWalletNfts_on_healthy_ledger (owner : Address) (log : Log)
  (data : list OwnedNft) :
  healthy env ->
  truthy (Some owner) = true ->
  getNftsForOwner env log owner = Ok data ->
  Forall (fun nft => repackable nft = true) data ->
  exists rented owned log',
    getTotalWalletNfts env (Some owner) "rented" log = Some (Ok rented, log') /\
    getTotalWalletNfts env (Some owner) "owned" log = Some (Ok owned, log') /\
    0 <= rented /\ 0 <= owned /\
    rented + owned = Z.of_nat (List.length data) /\
    sleeps log' = sleeps log /\
    index_fetches log' = S (index_fetches log).
Proof.
  intros Hh Ht Hdata Hrep.
  pose proof (tryWalk_log owner (mkCounts 0 0) log) as [Hs Hi].
  unfold getTotalWalletNfts, getTotalWalletNfts_fuel. rewrite Ht.
  cbn [whileTrue]. unfold tryWalk, alchemy_getNftsForOwner in *.
  rewrite Hdata in *.
  destruct (countWalk_healthy data Hh Hrep (mkCounts 0 0)
              (log ++ [EvGetNftsForOwner owner]))
    as (c' & log' & E & Hr & Ho & Hsum).
  rewrite E in *. cbn [snd] in Hs, Hi.
  exists (rentedCount c'), (ownedCount c'), log'.
  cbn in Hr, Ho, Hsum. repeat split; auto; lia.
Qed.

End EnumeratorMore.

(** ** The image address *)

Lemma substring_all (s : string) : substring 0 (String.length s) s = s.
Proof. induction s as [| c s IH]; cbn; [reflexivity | rewrite IH; reflexivity]. Qed.

Lemma prefix_split (p s : string) :
  prefix p s = true -> exists rest, s = String.append p rest.
Proof.
  revert s. induction p as [| c p IH]; intros s H.
  - exists s. reflexivity.
  - destruct s as [| c' s]; [discriminate |].
    cbn in H. destruct (ascii_dec c c') as [<- |]; [| discriminate].
    destruct (IH s H) as [rest ->]. exists rest. reflexivity.
Qed.

Lemma rewrite_image_ipfs (rest : string) :
  rewrite_image (String.append "ipfs://" rest)
  = String.append "https://ipfs.io/ipfs/" rest.
Proof.
  unfold rewrite_image, ipfsPrefix.
  cbn [String.append String.length Nat.leb substring String.eqb Ascii.eqb
         Bool.eqb andb Nat.sub].
  assert (E0 : substring 0 0 rest = EmptyString) by (destruct rest; reflexivity).
  rewrite E0. cbn [String.eqb].
  do 21 f_equal. rewrite Nat.sub_0_r. apply substring_all.
Qed.

Lemma rewrite_image_other (uri : string) :
  prefix "ipfs://" uri = false -> rewrite_image uri = uri.
Proof.
  intros H. unfold rewrite_image.
  destruct (String.eqb (substring 0 (String.length ipfsPrefix) uri) ipfsPrefix)
    eqn:E.
  - apply String.eqb_eq in E. apply prefix_correct in E.
    unfold ipfsPrefix in E. congruence.
  - rewrite andb_false_r. reflexivity.
Qed.

(** X19: The image address of an item: an address "ipfs://rest" becomes
    "https://ipfs.io/ipfs/rest", whatever [rest] is; any other address,
    one that is shorter than the prefix included, is left as it is; and
    rewriting twice is rewriting once. *)
Theorem rewrite_image_spec (uri : string) :
  (forall rest,
      uri = String.append "ipfs://" rest ->
      rewrite_image uri = String.append "https://ipfs.io/ipfs/" rest) /\
  (prefix "ipfs://" uri = false -> rewrite_image uri = uri) /\
  rewrite_image (rewrite_image uri) = rewrite_image uri.
Proof.
  split; [| split].
  - intros rest ->. apply rewrite_image_ipfs.
  - apply rewrite_image_other.
  - destruct (prefix "ipfs://" uri) eqn:H.
    + apply prefix_split in H. destruct H as [rest ->].
      rewrite rewrite_image_ipfs. apply rewrite_image_other. reflexivity.
    + rewrite (rewrite_image_other uri H). apply rewrite_image_other. exact H.
Qed.

Lemma rewrite_image_spec_witness :
  rewrite_image "ipfs://QmYwAPJzv5CZsnA/1.png"
  = "https://ipfs.io/ipfs/QmYwAPJzv5CZsnA/1.png" /\
  rewrite_image "https://example.org/1.png" = "https://example.org/1.png" /\
  rewrite_image "ipfs" = "ipfs".
Proof.
  split; [| split].
  - apply (proj1 (rewrite_image_spec "ipfs://QmYwAPJzv5CZsnA/1.png")
             "QmYwAPJzv5CZsnA/1.png").
    reflexivity.
  - apply (proj1 (proj2 (rewrite_image_spec "https://example.org/1.png"))).
    reflexivity.
  - apply (proj1 (proj2 (rewrite_image_spec "ipfs"))). reflexivity.
Defined.

(** ** The extra properties on concrete ledgers *)

Lemma steady_env_stable (n : nat) : stable (steady_env n).
Proof. split; intros; reflexivity. Qed.

Lemma unlocked_env_healthy (n : nat) : healthy (unlocked_env n).
Proof. intros log c method args. exists 0. split; [reflexivity | cbn; lia]. Qed.

Lemma getWalletNfts_page_bound_witness :
  exists rentals deposits log',
    getWalletNfts (steady_env 25) (Some "0xME") 2 []
    = (Ok (RentalsDeposits rentals deposits), log') /\
    Z.of_nat (List.length rentals + List.length deposits) <= pageSize /\
    Forall (fun r => rental_end r <> 0) rentals.
Proof.
  assert (H : exists rentals deposits log',
             getWalletNfts (steady_env 25) (Some "0xME") 2 []
             = (Ok (RentalsDeposits rentals deposits), log'))
    by (vm_compute; eexists _, _, _; reflexivity).
  destruct H as (rentals & deposits & log' & E).
  exists rentals, deposits, log'. split; [exact E |].
  exact (getWalletNfts_page_bound (steady_env 25) "0xME" 2 [] log'
           rentals deposits eq_refl E).
Defined.

Lemma getWalletNfts_page_out_of_range_witness :
  getWalletNfts (steady_env 25) (Some "0xME") 4 []
  = (Ok (RentalsDeposits [] []), [EvGetNftsForOwner "0xME"]) /\
  getWalletNfts (steady_env 25) (Some "0xME") 0 []
  = (Ok (RentalsDeposits [] []), [EvGetNftsForOwner "0xME"]).
Proof.
  split.
  - apply (getWalletNfts_page_out_of_range (steady_env 25) "0xME" 4 []
             (index_of_size 25) eq_refl eq_refl).
    right. vm_compute. discriminate.
  - apply (getWalletNfts_page_out_of_range (steady_env 25) "0xME" 0 []
             (index_of_size 25) eq_refl eq_refl).
    left. lia.
Defined.

Lemma getWalletNfts_returns_on_healthy_ledger_witness :
  exists rentals deposits log',
    getWalletNfts (unlocked_env 30) (Some "0xME") 3 []
    = (Ok (RentalsDeposits rentals deposits), log').
Proof.
  apply (getWalletNfts_returns_on_healthy_ledger (unlocked_env 30) "0xME" 3 []
           (index_of_size 30) (unlocked_env_healthy 30) eq_refl eq_refl).
  vm_compute. repeat constructor.
Defined.

Lemma getTotalWalletNfts_retry_schedule_witness :
  exists res log' failed,
    getTotalWalletNfts (flaky_env 10 10 2) (Some "0xME") "owned" []
    = Some (res, log') /\
    (failed <= 5)%nat /\
    sleeps log' = sleeps [] ++ firstn failed retry_schedule /\
    index_fetches log' = (index_fetches [] + Nat.min (failed + 1) 5)%nat /\
    ((failed < 5)%nat -> exists n, res = Ok n) /\
    (failed = 5%nat -> res = Thrown "Max retry count reached").
Proof.
  assert (H : exists res log',
             getTotalWalletNfts (flaky_env 10 10 2) (Some "0xME") "owned" []
             = Some (res, log'))
    by (vm_compute; eexists _, _; reflexivity).
  destruct H as (res & log' & E).
  destruct (getTotalWalletNfts_retry_schedule (flaky_env 10 10 2) "0xME"
              "owned" [] log' res eq_refl E) as (failed & H).
  exists res, log', failed. split; [exact E | exact H].
Defined.

Lemma getTotalWalletNfts_counts_the_listing_witness :
  exists rentals deposits l1 l2,
    fst (getWalletNfts (steady_env 10) (Some "0xME") 1 [])
    = Ok (RentalsDeposits rentals deposits) /\
    getTotalWalletNfts (steady_env 10) (Some "0xME") "rented" []
    = Some (Ok (Z.of_nat (List.length rentals)), l1) /\
    getTotalWalletNfts (steady_env 10) (Some "0xME") "owned" []
    = Some (Ok (Z.of_nat (List.length deposits)), l2).
Proof.
  assert (H : exists rentals deposits log',
             getWalletNfts (steady_env 10) (Some "0xME") 1 []
             = (Ok (RentalsDeposits rentals deposits), log'))
    by (vm_compute; eexists _, _, _; reflexivity).
  destruct H as (rentals & deposits & log' & E).
  destruct (getTotalWalletNfts_counts_the_listing (steady_env 10) "0xME"
              (index_of_size 10) [] log' [] rentals deposits
              (steady_env_stable 10) eq_refl eq_refl
              ltac:(vm_compute; discriminate) E) as (l1 & l2 & H).
  exists rentals, deposits, l1, l2. rewrite E. split; [reflexivity | exact H].
Defined.

Lemma getVaultNFTs_returns_requested_page_witness :
  getVaultNFTs (steady_env 25) chain_ids network_names (Thrown "no wallet")
    (index_of_size 25) (Some []) 2 [] = (Ok [], []) /\
  getVaultNFTs (steady_env 25) chain_ids network_names (Thrown "no wallet")
    (index_of_size 25) (Some ["0xC0FFEE"]) 2 [] = (Thrown "no wallet", []) /\
  exists nfts log',
    getVaultNFTs (steady_env 25) chain_ids network_names (Ok "0x5")
      (index_of_size 25) (Some ["0xC0FFEE"]) 2 []
    = (Ok nfts, log') /\
    map md_tokenId nfts
    = [Some "M"; Some "N"; Some "O"; Some "P"; Some "Q"; Some "R";
       Some "S"; Some "T"; Some "U"; Some "V"; Some "W"; Some "X"] /\
    repackage_trace (steady_env 25) [] (page_slice 2 (index_of_size 25))
      nfts log'.
Proof.
  split; [| split].
  - exact (proj1 (getVaultNFTs_returns_requested_page (steady_env 25)
                    chain_ids network_names (Thrown "no wallet")
                    (index_of_size 25) ["0xC0FFEE"] 2 [])).
  - apply (getVaultNFTs_returns_requested_page (steady_env 25)
             chain_ids network_names (Thrown "no wallet")
             (index_of_size 25) ["0xC0FFEE"] 2 []).
    + discriminate.
    + reflexivity.
  - assert (H : exists nfts log',
               getVaultNFTs (steady_env 25) chain_ids network_names (Ok "0x5")
                 (index_of_size 25) (Some ["0xC0FFEE"]) 2 []
               = (Ok nfts, log'))
      by (vm_compute; eexists _, _; reflexivity).
    destruct H as (nfts & log' & E).
    exists nfts, log'. split; [exact E |]. split.
    + assert (En : fst (getVaultNFTs (steady_env 25) chain_ids network_names
                          (Ok "0x5") (index_of_size 25) (Some ["0xC0FFEE"])
                          2 []) = Ok nfts) by (rewrite E; reflexivity).
      vm_compute in En. injection En as <-. reflexivity.
    + apply (getVaultNFTs_returns_requested_page (steady_env 25) chain_ids
               network_names (Ok "0x5") (index_of_size 25) ["0xC0FFEE"] 2 []).
      * discriminate.
      * exact E.
Defined.

Lemma getVaultNFTs_for_consumption_witness :
  exists st' log',
    getVaultNFTs_for (steady_env 25) 2 (index_of_size 25)
      (mkVaultPageState 0 []) []
    = (Ok st', log') /\
    vs_count st' = 24.
Proof.
  assert (H : exists st' log',
             getVaultNFTs_for (steady_env 25) 2 (index_of_size 25)
               (mkVaultPageState 0 []) []
             = (Ok st', log'))
    by (vm_compute; eexists _, _; reflexivity).
  destruct H as (st' & log' & E).
  exists st', log'. split; [exact E |].
  rewrite (getVaultNFTs_for_consumption (steady_env 25) 2 (index_of_size 25)
             [] log' st' E).
  reflexivity.
Defined.

Lemma getRentalAmountInfo_never_throws_witness :
  getRentalAmountInfo rental_env (Some "0xWALLET") []
  = (Ok (AmountNumber (Number_of_ratio 3 1), AmountString (5 * 10 ^ 18)),
     [EvCallWithRetry VAULT "getMaxRentalAmount" [];
      EvCallWithRetry VAULT "getRentalAmount" [ArgString "0xWALLET"]]) /\
  getRentalAmountInfo rental_env None []
  = (Ok (AmountNumber (Number_of_ratio 5 1), AmountString (5 * 10 ^ 18)),
     [EvCallWithRetry VAULT "getMaxRentalAmount" []]).
Proof.
  split.
  - destruct (getRentalAmountInfo_never_throws rental_env (Some "0xWALLET") [])
      as (remaining & maxRentalAmount & new & E & _ & _ & H & _).
    destruct (H eq_refl (Some (5 * 10 ^ 18)) eq_refl) as [H1 _].
    destruct (H1 (Some (2 * 10 ^ 18)) eq_refl) as (-> & -> & ->).
    rewrite E. vm_compute. reflexivity.
  - destruct (getRentalAmountInfo_never_throws rental_env None [])
      as (remaining & maxRentalAmount & new & E & Hd & H & _).
    destruct (H eq_refl (Some (5 * 10 ^ 18)) eq_refl) as [-> ->].
    destruct Hd as [[_ (reply & Hr & ->)] | [Hc _]]; [| discriminate Hc].
    change (Returns (Some (5 * 10 ^ 18)) = Returns reply) in Hr.
    injection Hr as <-.
    rewrite E. vm_compute. reflexivity.
Defined.

Lemma getTotalWalletNfts_on_healthy_ledger_witness :
  exists rented owned log',
    getTotalWalletNfts (unlocked_env 30) (Some "0xME") "rented" []
    = Some (Ok rented, log') /\
    getTotalWalletNfts (unlocked_env 30) (Some "0xME") "owned" []
    = Some (Ok owned, log') /\
    0 <= rented /\ 0 <= owned /\
    rented + owned = Z.of_nat (List.length (index_of_size 30)) /\
    sleeps log' = sleeps [] /\
    index_fetches log' = S (index_fetches []).
Proof.
  apply (getTotalWalletNfts_on_healthy_ledger (unlocked_env 30) "0xME" []
           (index_of_size 30) (unlocked_env_healthy 30) eq_refl eq_refl).
  vm_compute. repeat constructor.
Defined.
